(** * tg_console: the image-to-ASCII converter and its configuration

    A shallow embedding of [tg_console/image_converter.py], of the loading
    part of [tg_console/config.py], of the constructor and the media block
    of [tg_console/ui/chat_view.py] and of the message buffer of
    [tg_console/telegram_client.py], with the properties the specification
    states about them and further properties read off the code.

    - Python [int] is [Z]; Python [float] is IEEE-754 binary64, taken from
      the Standard Library's executable [SpecFloat] operations (round to
      nearest, ties to even); [str] is [string]; [bytes] is [list byte].
    - Exceptions are values: a fallible builtin returns [result].
    - The method bodies run in a small state-and-exception monad over the
      part of the process state a method can reach through [self].
    - Pillow is an external collaborator: it is an interface ([PIL]) whose
      operations are functions of their arguments. *)

From Stdlib Require Import ZArith List String Ascii Bool Lia QArith Qabs.
From Stdlib Require Import Floats.SpecFloat Strings.Byte.
From stdpp Require Import base gmap strings list.

Local Open Scope string_scope.
Local Open Scope Z_scope.

(* ================================================================== *)
(** * Python builtins *)
(* ================================================================== *)

Module Py.

(** ** Exceptions and results *)

(** The exception classes that occur; every one of them derives from
    [Exception].  [exn_str] is what [str(e)] returns. *)
Inductive exn_class : Type :=
| UnidentifiedImageError
| ZeroDivisionError
| ValueError
| OverflowError
| IndexError
| OtherException (name : string).

Record exn : Type := Exn { exn_cls : exn_class; exn_str : string }.

Inductive result (A : Type) : Type :=
| Ok (a : A)
| Raise (e : exn).
Arguments Ok {A} a.
Arguments Raise {A} e.

Definition rbind {A B} (r : result A) (k : A -> result B) : result B :=
  match r with
  | Ok a => k a
  | Raise e => Raise e
  end.

Definition is_ok {A} (r : result A) : bool :=
  match r with Ok _ => true | Raise _ => false end.

(** ** Floats: binary64 *)

Definition prec : Z := 53.
Definition emax : Z := 1024.

Definition float : Type := spec_float.

Definition float_mul (x y : float) : float := SFmul prec emax x y.

(** The literal [0.5]. *)
Definition half : float := S754_finite false 4503599627370496 (-53).

(** An integer as an unrounded (mantissa, exponent 0) pair. *)
Definition exact_int (n : Z) : float :=
  match n with
  | Z0 => S754_zero false
  | Zpos p => S754_finite false p 0
  | Zneg p => S754_finite true p 0
  end.

(** [float(n)]: correctly rounded, [OverflowError] beyond the range. *)
Definition float_of_int (n : Z) : result float :=
  match binary_normalize prec emax n 0 false with
  | S754_infinity _ => Raise (Exn OverflowError "int too large to convert to float")
  | x => Ok x
  end.

(** [a / b] on two ints: the correctly rounded quotient. *)
Definition int_truediv (a b : Z) : result float :=
  if b =? 0 then Raise (Exn ZeroDivisionError "division by zero")
  else
    match SFdiv prec emax (exact_int a) (exact_int b) with
    | S754_infinity _ =>
        Raise (Exn OverflowError "integer division result too large for a float")
    | x => Ok x
    end.

(** [n * x] with [n] an int and [x] a float: [n] is converted first. *)
Definition int_mul_float (n : Z) (x : float) : result float :=
  rbind (float_of_int n) (fun y => Ok (float_mul y x)).

(** [int(x)]: truncation toward zero. *)
Definition int_of_float (x : float) : result Z :=
  match x with
  | S754_nan => Raise (Exn ValueError "cannot convert float NaN to integer")
  | S754_infinity _ =>
      Raise (Exn OverflowError "cannot convert float infinity to integer")
  | S754_zero _ => Ok 0
  | S754_finite s m e => Ok (cond_Zopp s (Z.shiftl (Zpos m) e))
  end.

(** [round(x)] with one argument: nearest integer, ties to even. *)
Definition round (x : float) : result Z :=
  match x with
  | S754_nan => Raise (Exn ValueError "cannot convert float NaN to integer")
  | S754_infinity _ =>
      Raise (Exn OverflowError "cannot convert float infinity to integer")
  | S754_zero _ => Ok 0
  | S754_finite s m e =>
      if 0 <=? e then Ok (cond_Zopp s (Z.shiftl (Zpos m) e))
      else
        let d := 2 ^ (- e) in
        let q := Zpos m / d in
        let r := Zpos m mod d in
        let n :=
          match 2 * r ?= d with
          | Lt => q
          | Gt => q + 1
          | Eq => if Z.even q then q else q + 1
          end in
        Ok (cond_Zopp s n)
  end.

(** The rational a float stands for (0 for the non-finite ones). *)
Definition float_value (x : float) : Q :=
  match x with
  | S754_finite s m e =>
      let v := if 0 <=? e then inject_Z (Zpos m * 2 ^ e)
               else Qmake (Zpos m) (Z.to_pos (2 ^ (- e))) in
      if s then Qopp v else v
  | _ => 0%Q
  end.

(** ** Sequences and strings *)

Definition len {A} (l : list A) : Z := Z.of_nat (length l).

Definition str_len (s : string) : Z := Z.of_nat (String.length s).

(** [s[i]]: negative indices count from the end. *)
Definition str_getitem (s : string) (i : Z) : result string :=
  let n := str_len s in
  let j := if i <? 0 then i + n else i in
  if (0 <=? j) && (j <? n) then
    match String.get (Z.to_nat j) s with
    | Some c => Ok (String c EmptyString)
    | None => Raise (Exn IndexError "string index out of range")
    end
  else Raise (Exn IndexError "string index out of range").

(** [l[i:j]]: the bounds are taken from the end when negative and clamped
    to the length. *)
Definition slice_bound (n k : Z) : Z :=
  if k <? 0 then Z.max 0 (k + n) else Z.min k n.

Definition slice {A} (l : list A) (i j : Z) : list A :=
  let lo := slice_bound (len l) i in
  let hi := slice_bound (len l) j in
  firstn (Z.to_nat (hi - lo)) (skipn (Z.to_nat lo) l).

(** [range(start, stop, step)] as the list of its elements. *)
Definition range_length (start stop step : Z) : nat :=
  if 0 <? step then Z.to_nat ((stop - start + step - 1) / step)
  else Z.to_nat ((start - stop - step - 1) / (- step)).

Definition range (start stop step : Z) : result (list Z) :=
  if step =? 0 then Raise (Exn ValueError "range() arg 3 must not be zero")
  else Ok (map (fun k => start + Z.of_nat k * step)
               (seq 0 (range_length start stop step))).

(** [sep.join(l)]. *)
Definition join (sep : string) (l : list string) : string :=
  String.concat sep l.

(** [s.split(c)] for a one-character separator. *)
Fixpoint split (c : ascii) (s : string) : list string :=
  match s with
  | EmptyString => [EmptyString]
  | String a t =>
      if Ascii.eqb a c then EmptyString :: split c t
      else
        match split c t with
        | h :: r => String a h :: r
        | [] => [String a EmptyString]
        end
  end.

(** [needle in hay]. *)
Fixpoint contains (needle hay : string) : bool :=
  String.prefix needle hay
  || match hay with
     | EmptyString => false
     | String _ t => contains needle t
     end.

Definition newline : ascii := "010"%char.
Definition nl : string := String newline EmptyString.

End Py.

Import Py.

(* ================================================================== *)
(** * Pillow, the decoding and resampling collaborator *)
(* ================================================================== *)

(** The five Pillow entry points [image_converter.py] calls.  Each may
    raise; none of them is implemented in this repository. *)
Class PIL : Type := {
  image : Type;
  (** [Image.open(io.BytesIO(data))] *)
  Image_open : list byte -> result image;
  (** [image.convert(mode)] *)
  convert : image -> string -> result image;
  (** [image.size], as [(width, height)] *)
  size : image -> Z * Z;
  (** [image.resize((w, h))] *)
  resize : image -> Z * Z -> result image;
  (** [list(image.getdata())] *)
  getdata : image -> result (list Z)
}.

(** What the specification takes for granted of the resampler: a resize of
    a grayscale image to [w] by [h] holds [w * h] samples, each a byte. *)
Class PILLaws (P : PIL) : Prop := {
  resize_grid :
    forall (im0 im im' : image) (w h : Z),
      convert im0 "L" = Ok im ->
      resize im (w, h) = Ok im' ->
      1 <= w -> 1 <= h ->
      exists px, getdata im' = Ok px
                 /\ len px = w * h
                 /\ Forall (fun v => 0 <= v <= 255) px
}.

(* ================================================================== *)
(** * tg_console/image_converter.py *)
(* ================================================================== *)

Module ImageToAscii.

(** ** Objects and process state *)

(** An instance: [__init__] sets the one attribute [width]. *)
Record obj : Type := { width : Z }.

(** Line 12: the value the class attribute is bound to. *)
Definition ASCII_CHARS : string := "@%#*+=-:. ".

(** Lines 14-20. *)
Definition __init__ (width : option Z) : obj :=
  {| width := default 40 width |}.

(** What a method can reach: its instance, the class attribute, and the
    rest of the process ([R] is arbitrary). *)
Record state (R : Type) : Type := {
  self : obj;
  cls_ASCII_CHARS : string;
  rest : R
}.
Arguments self {R} s.
Arguments cls_ASCII_CHARS {R} s.
Arguments rest {R} s.

(** The state right after the class body has run and [self] has been
    constructed. *)
Definition fresh {R} (width : option Z) (r : R) : state R :=
  {| self := __init__ width; cls_ASCII_CHARS := ASCII_CHARS; rest := r |}.

(** ** The monad of method bodies *)

Definition M (R A : Type) : Type := state R -> result A * state R.

Definition ret {R A} (a : A) : M R A := fun s => (Ok a, s).

Definition raise {R A} (e : exn) : M R A := fun s => (Raise e, s).

Definition bind {R A B} (m : M R A) (k : A -> M R B) : M R B :=
  fun s =>
    match m s with
    | (Ok a, s') => k a s'
    | (Raise e, s') => (Raise e, s')
    end.

Definition lift {R A} (r : result A) : M R A := fun s => (r, s).

(** [self.width] and [self.ASCII_CHARS]. *)
Definition get_width {R} : M R Z := fun s => (Ok (width (self s)), s).
Definition get_ASCII_CHARS {R} : M R string :=
  fun s => (Ok (cls_ASCII_CHARS s), s).

(** [try: m except Exception as e: h e]. *)
Definition try_except {R A} (m : M R A) (h : exn -> M R A) : M R A :=
  fun s =>
    match m s with
    | (Ok a, s') => (Ok a, s')
    | (Raise e, s') => h e s'
    end.

(** A comprehension or [for] loop that collects one value per element. *)
Fixpoint for_each {R A B} (f : A -> M R B) (l : list A) : M R (list B) :=
  match l with
  | [] => ret []
  | a :: l' => bind (f a) (fun b => bind (for_each f l') (fun bs => ret (b :: bs)))
  end.

Notation "x <- m ;; k" := (bind m (fun x => k))
  (at level 100, m at next level, right associativity).

Section Converter.

Context {P : PIL} {R : Type}.

(** ** [_pixel_to_ascii], lines 59-70 *)

(** Line 69. *)
Definition pixel_index (pixel_value : Z) : M R Z :=
  chars <- get_ASCII_CHARS ;;
  q <- lift (int_truediv (pixel_value * (str_len chars - 1)) 255) ;;
  lift (int_of_float q).

Definition _pixel_to_ascii (pixel_value : Z) : M R string :=
  index <- pixel_index pixel_value ;;
  chars <- get_ASCII_CHARS ;;
  lift (str_getitem chars index).

(** ** [convert_image_to_ascii], lines 22-57 *)

(** Lines 40-41, given [self.width] and [image.size]. *)
Definition new_height (w orig_width orig_height : Z) : result Z :=
  rbind (int_truediv orig_height orig_width) (fun aspect_ratio =>
  rbind (int_mul_float w aspect_ratio) (fun t =>
  int_of_float (float_mul t half))).

(** Lines 33-52: the body of the [try]. *)
Definition convert_body (image_data : list byte) : M R string :=
  image <- lift (Image_open image_data) ;;
  image <- lift (convert image "L") ;;
  let '(orig_width, orig_height) := size image in
  w <- get_width ;;
  new_height <- lift (new_height w orig_width orig_height) ;;
  w <- get_width ;;
  image <- lift (resize image (w, new_height)) ;;
  pixels <- lift (getdata image) ;;
  w <- get_width ;;
  starts <- lift (range 0 (len pixels) w) ;;
  ascii_art <- for_each (fun i =>
      w <- get_width ;;
      let row := slice pixels i (i + w) in
      glyphs <- for_each _pixel_to_ascii row ;;
      ret (join "" glyphs)) starts ;;
  ret (join nl ascii_art).

(** Lines 54-57: the two handlers. *)
Definition handler (e : exn) : M R string :=
  match exn_cls e with
  | UnidentifiedImageError => ret "[Image format not supported]"
  | _ => ret ("[Error converting image: " ++ exn_str e ++ "]")%string
  end.

Definition convert_image_to_ascii (image_data : list byte) : M R string :=
  try_except (convert_body image_data) handler.

End Converter.

End ImageToAscii.

(* ================================================================== *)
(** * tg_console/config.py *)
(* ================================================================== *)

Module Config.

(** What [json.load] can return. *)
#[warnings="-register-all"] Inductive json : Type :=
| JNull
| JBool (b : bool)
| JInt (n : Z)
| JFloat (x : float)
| JStr (s : string)
| JArray (l : list json)
| JObject (m : gmap string json).

(** Lines 13-19, in the order the dict literal lists them. *)
Definition DEFAULT_ITEMS : list (string * json) :=
  [ ("api_id", JNull);
    ("api_hash", JNull);
    ("session_file", JStr "tg_session");
    ("ascii_art_width", JInt 40);
    ("max_messages", JInt 50) ].

Definition DEFAULT_CONFIG : gmap string json := list_to_map DEFAULT_ITEMS.

(** Lines 39-41 on a dict: every default whose key the file lacks is
    added. *)
Definition fill_defaults (config : gmap string json) : gmap string json :=
  foldl (fun config kv =>
           match config !! kv.1 with
           | None => <[ kv.1 := kv.2 ]> config
           | Some _ => config
           end)
        config DEFAULT_ITEMS.

(** [key in config] for a list (an element equal to the key) and for a
    string (the key is a substring). *)
Definition is_str (key : string) (v : json) : bool :=
  match v with
  | JStr s => String.eqb s key
  | _ => false
  end.

Definition key_in (key : string) (config : json) : bool :=
  match config with
  | JArray l => existsb (is_str key) l
  | JStr s => contains key s
  | _ => false
  end.

Definition holds_all_keys (config : json) : bool :=
  forallb (fun kv => key_in kv.1 config) DEFAULT_ITEMS.

(** Lines 37-42 by the kind of value parsed.  On a dict the loop fills in
    the defaults.  On a list or a string [key not in config] is a
    membership or substring test: when every key passes it the loop
    assigns nothing and the value is returned as it is, otherwise
    [config[key] = value] raises [TypeError].  On a number, a bool or
    [None] the test itself raises [TypeError]. *)
Definition load_parsed (config : json) : result json :=
  match config with
  | JObject m => Ok (JObject (fill_defaults m))
  | JArray _ =>
      if holds_all_keys config then Ok config
      else Raise (Exn (OtherException "TypeError")
                      "list indices must be integers or slices, not str")
  | JStr _ =>
      if holds_all_keys config then Ok config
      else Raise (Exn (OtherException "TypeError")
                      "'str' object does not support item assignment")
  | _ => Raise (Exn (OtherException "TypeError") "argument is not iterable")
  end.

(** Lines 47-58: the defaults with the two credentials typed at the
    prompts. *)
Definition prompted (api_id api_hash : string) : json :=
  JObject (<[ "api_hash" := JStr api_hash ]>
             (<[ "api_id" := JStr api_id ]> DEFAULT_CONFIG)).

(** [_load_config], lines 27-58.  [file] is what [json.load] returns when
    [config.json] exists and parses; [api_id] and [api_hash] are what the
    user types at the two prompts, reached when there is no such value or
    when lines 37-42 raise (line 43 swallows every exception). *)
Definition _load_config (file : option json) (api_id api_hash : string) : json :=
  match file with
  | Some config =>
      match load_parsed config with
      | Ok config => config
      | Raise _ => prompted api_id api_hash
      end
  | None => prompted api_id api_hash
  end.

(** Lines 83-86: [self.config.get("ascii_art_width", 40)].  Only a dict has
    [get]. *)
Definition ascii_art_width (config : json) : result json :=
  match config with
  | JObject m => Ok (default (JInt 40) (m !! "ascii_art_width"))
  | JArray _ => Raise (Exn (OtherException "AttributeError")
                           "'list' object has no attribute 'get'")
  | JStr _ => Raise (Exn (OtherException "AttributeError")
                         "'str' object has no attribute 'get'")
  | JInt _ => Raise (Exn (OtherException "AttributeError")
                         "'int' object has no attribute 'get'")
  | JFloat _ => Raise (Exn (OtherException "AttributeError")
                           "'float' object has no attribute 'get'")
  | JBool _ => Raise (Exn (OtherException "AttributeError")
                          "'bool' object has no attribute 'get'")
  | JNull => Raise (Exn (OtherException "AttributeError")
                        "'NoneType' object has no attribute 'get'")
  end.

End Config.

(* ================================================================== *)
(** * tg_console/ui/chat_view.py *)
(* ================================================================== *)

Module ChatView.

(** The attributes [__init__] sets that matter here; the widgets and the
    message list are left out. *)
Record obj (H D C : Type) : Type := {
  telegram_handler : H;
  dialog : D;
  on_close : C;
  image_converter : ImageToAscii.obj
}.
Arguments telegram_handler {H D C} o.
Arguments dialog {H D C} o.
Arguments on_close {H D C} o.
Arguments image_converter {H D C} o.

(** Lines 13-26: the converter is built with no argument. *)
Definition __init__ {H D C} (telegram_handler : H) (dialog : D) (on_close : C)
  : obj H D C :=
  {| telegram_handler := telegram_handler;
     dialog := dialog;
     on_close := on_close;
     image_converter := ImageToAscii.__init__ None |}.

(** Lines 151-170 of [_load_messages], for a message that has media: the
    item appended to [content].  [downloaded] is what [download_media] did
    (raise, return [None], or return bytes); the converter called is
    [self.image_converter], the [self] of the state. *)
Definition media_content {P : PIL} {R} (downloaded : result (option (list byte)))
  : ImageToAscii.M R string :=
  ImageToAscii.try_except
    (ImageToAscii.bind (ImageToAscii.lift downloaded) (fun media_data =>
       match media_data with
       | Some ((_ :: _) as data) =>
           ImageToAscii.bind (ImageToAscii.convert_image_to_ascii data)
             (fun ascii_art =>
                if String.eqb ascii_art EmptyString
                then ImageToAscii.ret ("[Media: Could not render]" ++ nl)%string
                else ImageToAscii.ret (nl ++ ascii_art ++ nl)%string)
       | _ => ImageToAscii.ret ("[Media: Could not download]" ++ nl)%string
       end))
    (fun e => ImageToAscii.ret ("[Media: " ++ exn_str e ++ "]" ++ nl)%string).

End ChatView.

(* ================================================================== *)
(** * tg_console/telegram_client.py *)
(* ================================================================== *)

Module TelegramHandler.

Section Store.

Context {Msg : Type}.

(** [on_new_message], lines 143-153: the update of
    [self.current_messages] for a message of chat [chat_id].  (The two
    callbacks that follow do not touch the dict.) *)
Definition on_new_message (chat_id : Z) (message : Msg)
    (current_messages : gmap Z (list Msg)) : gmap Z (list Msg) :=
  let current_messages :=
    match current_messages !! chat_id with
    | None => <[ chat_id := [] ]> current_messages
    | Some _ => current_messages
    end in
  let current_messages :=
    <[ chat_id := message :: default [] (current_messages !! chat_id) ]>
      current_messages in
  if 100 <? len (default [] (current_messages !! chat_id))
  then <[ chat_id := take 100 (default [] (current_messages !! chat_id)) ]>
         current_messages
  else current_messages.

(** A run of the handler over the events received, oldest first. *)
Definition on_new_messages (events : list (Z * Msg))
    (current_messages : gmap Z (list Msg)) : gmap Z (list Msg) :=
  foldl (fun cm ev => on_new_message ev.1 ev.2 cm) current_messages events.

End Store.

End TelegramHandler.

(* ================================================================== *)
(** * A concrete decoder: raw 8-bit grayscale *)
(* ================================================================== *)

(** An instance of [PIL] small enough to compute with.  A file is a
    four-byte header (width and height, big-endian 16 bit each) followed
    by [width * height] samples, row-major.  Resizing is nearest-neighbour
    and, like Pillow's, refuses a side below 1. *)
Module Raw.

Record img : Type := { im_size : Z * Z; im_data : list Z }.

Definition byte_val (b : byte) : Z := Z.of_N (Byte.to_N b).

Definition raw_open (data : list byte) : result img :=
  match data with
  | a :: b :: c :: d :: body =>
      let w := 256 * byte_val a + byte_val b in
      let h := 256 * byte_val c + byte_val d in
      if len body <? w * h
      then Raise (Exn (OtherException "OSError") "image file is truncated")
      else Ok {| im_size := (w, h);
                 im_data := map byte_val (firstn (Z.to_nat (w * h)) body) |}
  | _ => Raise (Exn UnidentifiedImageError "cannot identify image file")
  end.

Definition clamp_byte (v : Z) : Z := Z.max 0 (Z.min 255 v).

Definition raw_convert (im : img) (mode : string) : result img :=
  if String.eqb mode "L"
  then Ok {| im_size := im_size im; im_data := map clamp_byte (im_data im) |}
  else Raise (Exn ValueError "conversion not supported").

Definition sample (im : img) (w h x y : Z) : Z :=
  let '(ow, oh) := im_size im in
  nth (Z.to_nat ((y * oh / h) * ow + x * ow / w)) (im_data im) 0.

Definition raw_resize (im : img) (wh : Z * Z) : result img :=
  let '(w, h) := wh in
  if (w <? 1) || (h <? 1)
  then Raise (Exn ValueError "height and width must be > 0")
  else Ok {| im_size := (w, h);
             im_data :=
               flat_map (fun y => map (fun x => sample im w h (Z.of_nat x) (Z.of_nat y))
                                      (seq 0 (Z.to_nat w)))
                        (seq 0 (Z.to_nat h)) |}.

#[export] Instance pil : PIL := {|
  image := img;
  Image_open := raw_open;
  convert := raw_convert;
  size := im_size;
  resize := raw_resize;
  getdata := fun im => Ok (im_data im)
|}.

(** One file: [w] by [h], every sample equal to [v]. *)
Definition be16 (n : Z) : list byte :=
  match Byte.of_N (Z.to_N (n / 256)), Byte.of_N (Z.to_N (n mod 256)) with
  | Some a, Some b => [a; b]
  | _, _ => []
  end.

Definition solid (w h : Z) (v : byte) : list byte :=
  be16 w ++ be16 h ++ repeat v (Z.to_nat (w * h)).

End Raw.

(* ================================================================== *)
(** * Definitions used to state the properties *)
(* ================================================================== *)

Import ImageToAscii.

(** The characters of a string. *)
Definition chars (s : string) : list ascii := list_ascii_of_string s.

(** A method body that only reads: it hands the state back as it got it,
    and its result depends on the state through [self.width] and
    [ASCII_CHARS] alone. *)
Definition reads_only {R A} (m : M R A) : Prop :=
  (forall s, snd (m s) = s)
  /\ (forall s1 s2,
        width (self s1) = width (self s2) ->
        cls_ASCII_CHARS s1 = cls_ASCII_CHARS s2 ->
        fst (m s1) = fst (m s2)).

(** Line 69 and [_pixel_to_ascii] as functions of the ramp they read. *)
Definition index_of (ramp : string) (v : Z) : result Z :=
  rbind (int_truediv (v * (str_len ramp - 1)) 255) int_of_float.

Definition glyph_of (ramp : string) (v : Z) : result string :=
  rbind (index_of ramp v) (str_getitem ramp).

(** The quantization rule in the specification's words: the index
    [floor(v * (L - 1) / 255)] clamped to [0, L - 1], in exact integer
    arithmetic. *)
Definition spec_index (v : Z) : Z :=
  let L := str_len ASCII_CHARS in
  Z.max 0 (Z.min (L - 1) (v * (L - 1) / 255)).

Definition spec_glyph (v : Z) : string :=
  match String.get (Z.to_nat (spec_index v)) ASCII_CHARS with
  | Some c => String c EmptyString
  | None => EmptyString
  end.

(** The float handed to [int] on line 41. *)
Definition height_product (w orig_width orig_height : Z) : result float :=
  rbind (int_truediv orig_height orig_width) (fun aspect_ratio =>
  rbind (int_mul_float w aspect_ratio) (fun t => Ok (float_mul t half))).

(** The height in the specification's words: [round] of the same
    product. *)
Definition spec_new_height (w orig_width orig_height : Z) : result Z :=
  rbind (height_product w orig_width orig_height) round.

(** A list cut into [n] consecutive groups of [w]. *)
Fixpoint chunks {A} (w n : nat) (l : list A) : list (list A) :=
  match n with
  | O => []
  | S n' => firstn w l :: chunks w n' (skipn w l)
  end.

(** One rendered row. *)
Definition row_text (row : list Z) : string := join "" (map spec_glyph row).

(** The text of a grid of [h] rows of [w] samples. *)
Definition grid_text (w h : Z) (px : list Z) : list string :=
  map row_text (chunks (Z.to_nat w) (Z.to_nat h) px).

(** The ramp character a sample is drawn as. *)
Definition glyph_char (v : Z) : ascii :=
  match String.get (Z.to_nat (spec_index v)) ASCII_CHARS with
  | Some c => c
  | None => " "%char
  end.

(** The messages of chat [c] among the events, oldest first. *)
Definition messages_of {Msg} (c : Z) (events : list (Z * Msg)) : list Msg :=
  map snd (List.filter (fun ev => Z.eqb (fst ev) c) events).

(** Checking one entry of the quantization table. *)
Definition index_agrees (n : nat) : bool :=
  match index_of ASCII_CHARS (Z.of_nat n) with
  | Ok i => i =? spec_index (Z.of_nat n)
  | Raise _ => false
  end.

Definition is_index_error {A} (r : result A) : bool :=
  match r with
  | Raise (Exn IndexError _) => true
  | _ => false
  end.

(* ================================================================== *)
(** * Running method bodies *)
(* ================================================================== *)

Section Runs.

Context {P : PIL} {R : Type}.

Lemma bind_ok {A B} (m : M R A) (k : A -> M R B) s a s' :
  m s = (Ok a, s') -> bind m k s = k a s'.
Proof. intros H. unfold bind. now rewrite H. Qed.

Lemma bind_raise {A B} (m : M R A) (k : A -> M R B) s e s' :
  m s = (Raise e, s') -> bind m k s = (Raise e, s').
Proof. intros H. unfold bind. now rewrite H. Qed.

Lemma bind_inv {A B} (m : M R A) (k : A -> M R B) s b s' :
  bind m k s = (Ok b, s') ->
  exists a s1, m s = (Ok a, s1) /\ k a s1 = (Ok b, s').
Proof.
  unfold bind. destruct (m s) as [[a|e] s1]; intros H.
  - now exists a, s1.
  - discriminate.
Qed.

Lemma pixel_index_run v (s : state R) :
  pixel_index v s = (index_of (cls_ASCII_CHARS s) v, s).
Proof.
  unfold pixel_index, index_of, bind, get_ASCII_CHARS, lift. simpl.
  now destruct (int_truediv _ 255).
Qed.

Lemma pixel_to_ascii_run v (s : state R) :
  _pixel_to_ascii v s = (glyph_of (cls_ASCII_CHARS s) v, s).
Proof.
  unfold _pixel_to_ascii, bind. rewrite pixel_index_run.
  unfold glyph_of, get_ASCII_CHARS, lift.
  now destruct (index_of _ v).
Qed.

Lemma for_each_ok {A B} (f : A -> M R B) (g : A -> B) l s :
  Forall (fun a => f a s = (Ok (g a), s)) l ->
  for_each f l s = (Ok (map g l), s).
Proof.
  induction 1 as [|a l Ha _ IH]; simpl; [reflexivity|].
  unfold bind at 1. rewrite Ha. unfold bind at 1. now rewrite IH.
Qed.

Lemma for_each_inv {A B} (f : A -> M R B) (I : state R -> Prop)
    (Q : B -> Prop) l :
  (forall a s b s', I s -> f a s = (Ok b, s') -> Q b /\ I s') ->
  forall s bs s', I s -> for_each f l s = (Ok bs, s') -> Forall Q bs /\ I s'.
Proof.
  intros Hf. induction l as [|a l IH]; simpl; intros s bs s' Hi H.
  - inversion H; subst. split; [constructor | assumption].
  - apply bind_inv in H as (b & s1 & Hb & H).
    apply bind_inv in H as (bs' & s2 & Hbs & H).
    inversion H; subst.
    destruct (Hf _ _ _ _ Hi Hb) as [Hq Hi1].
    destruct (IH _ _ _ Hi1 Hbs) as [Hqs Hi2].
    split; [now constructor | assumption].
Qed.

End Runs.

(* ================================================================== *)
(** * The quantization table *)
(* ================================================================== *)

Lemma index_table : forallb index_agrees (seq 0 256) = true.
Proof. vm_compute. reflexivity. Qed.

Lemma index_of_byte v :
  0 <= v <= 255 -> index_of ASCII_CHARS v = Ok (spec_index v).
Proof.
  intros Hv.
  assert (Hin : In (Z.to_nat v) (seq 0 256)) by (apply in_seq; lia).
  pose proof (proj1 (forallb_forall _ _) index_table _ Hin) as H.
  unfold index_agrees in H. rewrite Z2Nat.id in H by lia.
  destruct (index_of ASCII_CHARS v) as [i|e]; [|discriminate].
  apply Z.eqb_eq in H. now subst.
Qed.

Lemma spec_index_range v : 0 <= spec_index v <= 9.
Proof. unfold spec_index. change (str_len ASCII_CHARS) with 10. lia. Qed.

Lemma get_in n s c : String.get n s = Some c -> In c (chars s).
Proof.
  revert n. induction s as [|a s IH]; intros [|n]; simpl; try discriminate.
  - intros [= ->]. now left.
  - intros H. right. eauto.
Qed.

Lemma get_lt n s : (n < String.length s)%nat -> exists c, String.get n s = Some c.
Proof.
  revert n. induction s as [|a s IH]; intros [|n]; simpl; try lia.
  - eauto.
  - intros H. apply IH. lia.
Qed.

Lemma spec_glyph_char v :
  exists c, spec_glyph v = String c EmptyString /\ In c (chars ASCII_CHARS).
Proof.
  unfold spec_glyph. pose proof (spec_index_range v) as Hr.
  destruct (get_lt (Z.to_nat (spec_index v)) ASCII_CHARS) as [c Hc].
  { change (String.length ASCII_CHARS) with 10%nat. lia. }
  rewrite Hc. exists c. split; [reflexivity|]. now apply get_in in Hc.
Qed.

Lemma str_getitem_char s i g :
  str_getitem s i = Ok g -> exists c, g = String c EmptyString /\ In c (chars s).
Proof.
  unfold str_getitem. destruct (_ && _); [|discriminate].
  destruct (String.get _ s) as [c|] eqn:Hc; [|discriminate].
  intros [= <-]. exists c. split; [reflexivity|]. now apply get_in in Hc.
Qed.

Lemma spec_index_floor v : 0 <= v <= 255 -> spec_index v = v * 9 / 255.
Proof.
  intros Hv. unfold spec_index. change (str_len ASCII_CHARS) with 10.
  change (10 - 1) with 9.
  assert (0 <= v * 9 / 255) by (apply Z.div_pos; lia).
  assert (v * 9 / 255 <= 9) by (apply Z.div_le_upper_bound; lia).
  lia.
Qed.

Lemma str_getitem_spec v :
  str_getitem ASCII_CHARS (spec_index v) = Ok (spec_glyph v).
Proof.
  pose proof (spec_index_range v) as Hr. unfold str_getitem, spec_glyph.
  change (str_len ASCII_CHARS) with 10.
  destruct (spec_index v <? 0) eqn:E; [lia|].
  replace ((0 <=? spec_index v) && (spec_index v <? 10)) with true by lia.
  destruct (get_lt (Z.to_nat (spec_index v)) ASCII_CHARS) as [c Hc].
  { change (String.length ASCII_CHARS) with 10%nat. lia. }
  now rewrite Hc.
Qed.

Lemma glyph_of_byte v :
  0 <= v <= 255 -> glyph_of ASCII_CHARS v = Ok (spec_glyph v).
Proof.
  intros Hv. unfold glyph_of. rewrite index_of_byte by assumption.
  simpl. apply str_getitem_spec.
Qed.

(* ================================================================== *)
(** * Quantization: [_pixel_to_ascii] *)
(* ================================================================== *)

(** C6: for a luminance sample [v] in 0..255 the glyph returned is the ramp
    character at index [floor(v * (L - 1) / 255)] clamped to [0, L - 1],
    with [L = 10]; the clamp never acts in that range; 0 gives the first
    ramp character ['@'] and 255 the last one, the space. *)
Theorem pixel_to_ascii_quantizes {R} (s : state R) (v : Z) :
  cls_ASCII_CHARS s = ASCII_CHARS ->
  0 <= v <= 255 ->
  (exists c,
      String.get (Z.to_nat (spec_index v)) ASCII_CHARS = Some c
      /\ _pixel_to_ascii v s = (Ok (String c EmptyString), s))
  /\ spec_index v = v * (str_len ASCII_CHARS - 1) / 255
  /\ _pixel_to_ascii 0 s = (Ok "@", s)
  /\ _pixel_to_ascii 255 s = (Ok " ", s).
Proof.
  intros Hc Hv. repeat split.
  - pose proof (spec_index_range v) as Hr.
    destruct (get_lt (Z.to_nat (spec_index v)) ASCII_CHARS) as [c Hg].
    { change (String.length ASCII_CHARS) with 10%nat. lia. }
    exists c. split; [assumption|].
    rewrite pixel_to_ascii_run, Hc, glyph_of_byte by assumption.
    unfold spec_glyph. now rewrite Hg.
  - now apply spec_index_floor.
  - rewrite pixel_to_ascii_run, Hc. reflexivity.
  - rewrite pixel_to_ascii_run, Hc. reflexivity.
Qed.

Lemma pixel_to_ascii_quantizes_witness :
  _pixel_to_ascii 128 (fresh (R:=unit) None tt) = (Ok "+", fresh None tt).
Proof.
  destruct (pixel_to_ascii_quantizes (fresh (R:=unit) None tt) 128)
    as [(c & Hg & Hrun) _]; [reflexivity | lia |].
  vm_compute in Hg. injection Hg as <-. exact Hrun.
Defined.

(** C10: for a pixel value [v] in 0..255 the index
    [int(v * (L - 1) / 255)] computed on line 69 lies in [0, L - 1], so the
    lookup on line 70 is in bounds although nothing clamps it; outside
    0..255 this can fail: 284 gives index 10 and the lookup raises
    [IndexError]. *)
Theorem pixel_index_in_bounds {R} (s : state R) (v : Z) :
  cls_ASCII_CHARS s = ASCII_CHARS ->
  0 <= v <= 255 ->
  (exists i,
      pixel_index v s = (Ok i, s)
      /\ 0 <= i <= str_len ASCII_CHARS - 1
      /\ is_ok (str_getitem ASCII_CHARS i) = true
      /\ is_ok (fst (_pixel_to_ascii v s)) = true)
  /\ (exists v',
        ~ (0 <= v' <= 255)
        /\ pixel_index v' s = (Ok (str_len ASCII_CHARS), s)
        /\ is_index_error (fst (_pixel_to_ascii v' s)) = true).
Proof.
  intros Hc Hv. split.
  - exists (spec_index v). pose proof (spec_index_range v) as Hr.
    rewrite pixel_index_run, pixel_to_ascii_run, Hc.
    rewrite index_of_byte, glyph_of_byte, str_getitem_spec by assumption.
    change (str_len ASCII_CHARS) with 10. repeat split; lia.
  - exists 284. rewrite pixel_index_run, pixel_to_ascii_run, Hc.
    split; [lia|]. split; vm_compute; reflexivity.
Qed.

Lemma pixel_index_in_bounds_witness :
  exists i, pixel_index 200 (fresh (R:=unit) None tt) = (Ok i, fresh None tt)
            /\ 0 <= i <= 9.
Proof.
  destruct (pixel_index_in_bounds (fresh (R:=unit) None tt) 200)
    as [(i & Hrun & Hi & _) _]; [reflexivity | lia |].
  exists i. split; [exact Hrun | exact Hi].
Defined.

(* ================================================================== *)
(** * The converter only reads *)
(* ================================================================== *)

Section ReadsOnly.

Context {P : PIL} {R : Type}.

Lemma ro_ret {A} (a : A) : reads_only (ret (R:=R) a).
Proof. split; intros; reflexivity. Qed.

Lemma ro_lift {A} (r : result A) : reads_only (lift (R:=R) r).
Proof. split; intros; reflexivity. Qed.

Lemma ro_get_width : reads_only (get_width (R:=R)).
Proof. split; intros; simpl; [reflexivity | congruence]. Qed.

Lemma ro_get_ASCII_CHARS : reads_only (get_ASCII_CHARS (R:=R)).
Proof. split; intros; simpl; [reflexivity | congruence]. Qed.

Lemma ro_bind {A B} (m : M R A) (k : A -> M R B) :
  reads_only m -> (forall a, reads_only (k a)) -> reads_only (bind m k).
Proof.
  intros [Hs Hf] Hk. split.
  - intros s. unfold bind. specialize (Hs s).
    destruct (m s) as [[a|e] s1]; simpl in Hs; subst s1; [apply Hk | reflexivity].
  - intros s1 s2 Hw Hc. unfold bind.
    pose proof (Hs s1) as H1. pose proof (Hs s2) as H2.
    specialize (Hf s1 s2 Hw Hc).
    destruct (m s1) as [r1 t1], (m s2) as [r2 t2]; simpl in *; subst.
    destruct r2 as [a|e]; [now apply Hk | reflexivity].
Qed.

Lemma ro_try_except {A} (m : M R A) (h : exn -> M R A) :
  reads_only m -> (forall e, reads_only (h e)) -> reads_only (try_except m h).
Proof.
  intros [Hs Hf] Hh. split.
  - intros s. unfold try_except. specialize (Hs s).
    destruct (m s) as [[a|e] s1]; simpl in Hs; subst s1; [reflexivity | apply Hh].
  - intros s1 s2 Hw Hc. unfold try_except.
    pose proof (Hs s1) as H1. pose proof (Hs s2) as H2.
    specialize (Hf s1 s2 Hw Hc).
    destruct (m s1) as [r1 t1], (m s2) as [r2 t2]; simpl in *; subst.
    destruct r2 as [a|e]; [reflexivity | now apply Hh].
Qed.

Lemma ro_for_each {A B} (f : A -> M R B) l :
  (forall a, reads_only (f a)) -> reads_only (for_each f l).
Proof.
  intros Hf. induction l as [|a l IH]; simpl.
  - apply ro_ret.
  - apply ro_bind; [apply Hf|]. intros b.
    apply ro_bind; [apply IH|]. intros bs. apply ro_ret.
Qed.

Lemma ro_pixel_to_ascii v : reads_only (_pixel_to_ascii (R:=R) v).
Proof.
  unfold _pixel_to_ascii, pixel_index.
  repeat (first [ apply ro_get_ASCII_CHARS | apply ro_lift
                | apply ro_bind; [|intros ?] ]).
Qed.

Lemma ro_handler e : reads_only (handler (R:=R) e).
Proof. unfold handler. destruct (exn_cls e); apply ro_ret. Qed.

Lemma ro_convert_body data : reads_only (convert_body (R:=R) data).
Proof.
  unfold convert_body.
  apply ro_bind; [apply ro_lift | intros im0].
  apply ro_bind; [apply ro_lift | intros im].
  destruct (size im) as [ow oh].
  repeat (first [ apply ro_get_width | apply ro_lift | apply ro_ret
                | apply ro_for_each; intros ?
                | apply ro_pixel_to_ascii
                | apply ro_bind; [|intros ?] ]).
Qed.

Lemma ro_convert data : reads_only (convert_image_to_ascii (R:=R) data).
Proof.
  apply ro_try_except; [apply ro_convert_body | apply ro_handler].
Qed.

Lemma convert_body_state data (s : state R) : snd (convert_body data s) = s.
Proof. apply ro_convert_body. Qed.

End ReadsOnly.

(* ================================================================== *)
(** * Failure handling, effects and determinism *)
(* ================================================================== *)

(** C1: [convert_image_to_ascii] returns a string for every byte buffer
    and every converter and never raises.  When [Image.open] does not
    identify the buffer the string is ["[Image format not supported]"];
    when anything else in the body raises [e] it is
    ["[Error converting image: " + str(e) + "]"]; every such placeholder is
    non-empty and contains "format" or "Error". *)
Theorem convert_never_raises {P : PIL} {R} (s : state R) (data : list byte) :
  exists out,
    convert_image_to_ascii data s = (Ok out, s)
    /\ (forall e, Image_open data = Raise e ->
                  exn_cls e = UnidentifiedImageError ->
                  out = "[Image format not supported]")
    /\ (forall e, fst (convert_body data s) = Raise e ->
          ((exn_cls e = UnidentifiedImageError
            /\ out = "[Image format not supported]")
           \/ (exn_cls e <> UnidentifiedImageError
               /\ out = ("[Error converting image: " ++ exn_str e ++ "]")%string))
          /\ out <> EmptyString
          /\ contains "format" out || contains "Error" out = true)
    /\ (forall r, fst (convert_body data s) = Ok r -> out = r).
Proof.
  pose proof (convert_body_state data s) as Hs.
  unfold convert_image_to_ascii, try_except.
  assert (Hopen : forall e, Image_open data = Raise e ->
                            fst (convert_body data s) = Raise e).
  { intros e He. unfold convert_body, bind, lift. now rewrite He. }
  destruct (convert_body data s) as [[r|e] s1] eqn:Hb; simpl in Hs; subst s1.
  - exists r. split; [reflexivity|]. split; [|split].
    + intros e He _. apply Hopen in He. simpl in He. discriminate.
    + intros e He. discriminate.
    + intros r' [= ->]. reflexivity.
  - simpl in Hopen.
    assert (Hh : exists out, handler e s = (Ok out, s)
               /\ ((exn_cls e = UnidentifiedImageError
                    /\ out = "[Image format not supported]")
                   \/ (exn_cls e <> UnidentifiedImageError
                       /\ out = ("[Error converting image: " ++ exn_str e ++ "]")%string))
               /\ out <> EmptyString
               /\ contains "format" out || contains "Error" out = true).
    { unfold handler.
      destruct (exn_cls e) eqn:Hc;
        (eexists; split; [reflexivity|]; split;
         [first [left; split; [reflexivity|reflexivity]
                |right; split; [discriminate|reflexivity]]
         |split; [discriminate
                 |first [reflexivity
                        |apply orb_true_iff; right; reflexivity]]]). }
    destruct Hh as (out & Hrun & Hform & Hne & Hrec).
    exists out. split; [exact Hrun|]. split; [|split].
    + intros e' He' Hc. apply Hopen in He'. injection He' as ->.
      destruct Hform as [[_ ->]|[Hn _]]; [reflexivity | contradiction].
    + intros e' [= <-]. auto.
    + intros r [=].
Qed.

(** C8: a call leaves the state exactly as it found it: [self.width],
    the class attribute [ASCII_CHARS] and everything else. *)
Theorem convert_no_side_effects {P : PIL} {R} (s : state R) (data : list byte) :
  snd (convert_image_to_ascii data s) = s
  /\ width (self (snd (convert_image_to_ascii data s))) = width (self s)
  /\ cls_ASCII_CHARS (snd (convert_image_to_ascii data s)) = cls_ASCII_CHARS s
  /\ rest (snd (convert_image_to_ascii data s)) = rest s.
Proof.
  destruct (ro_convert (R:=R) data) as [Hs _].
  rewrite Hs. repeat split.
Qed.

(** C7: two calls on converters of the same width with the same bytes
    return the same string, whatever else the two process states hold; and
    a second call on the same converter returns what the first did. *)
Theorem convert_deterministic {P : PIL} {R} (s1 s2 : state R)
    (d1 d2 : list byte) :
  width (self s1) = width (self s2) ->
  cls_ASCII_CHARS s1 = ASCII_CHARS ->
  cls_ASCII_CHARS s2 = ASCII_CHARS ->
  d1 = d2 ->
  fst (convert_image_to_ascii d1 s1) = fst (convert_image_to_ascii d2 s2)
  /\ fst (convert_image_to_ascii d1 (snd (convert_image_to_ascii d1 s1)))
     = fst (convert_image_to_ascii d1 s1).
Proof.
  intros Hw H1 H2 <-.
  destruct (ro_convert (R:=R) d1) as [Hs Hf]. split.
  - apply Hf; congruence.
  - now rewrite Hs.
Qed.

(* ================================================================== *)
(** * Rows: [range], slices and chunks *)
(* ================================================================== *)

Lemma range_rows w h :
  1 <= w -> 0 <= h ->
  range 0 (w * h) w = Ok (map (fun k => Z.of_nat k * w) (seq 0 (Z.to_nat h))).
Proof.
  intros Hw Hh. unfold range, range_length.
  destruct (w =? 0) eqn:E; [lia|].
  destruct (0 <? w) eqn:E'; [|lia].
  replace ((w * h - 0 + w - 1) / w) with h; [reflexivity|].
  replace (w * h - 0 + w - 1) with (h * w + (w - 1)) by lia.
  rewrite Z.div_add_l by lia. rewrite Z.div_small by lia. lia.
Qed.

Lemma slice_row {A} (l : list A) w h k :
  1 <= w -> len l = w * h -> (k < Z.to_nat h)%nat ->
  slice l (Z.of_nat k * w) (Z.of_nat k * w + w)
  = firstn (Z.to_nat w) (skipn (k * Z.to_nat w) l).
Proof.
  intros Hw Hl Hk. unfold slice, slice_bound. rewrite Hl.
  assert (Hk' : Z.of_nat k + 1 <= h) by lia.
  assert (H1 : Z.of_nat k * w + w <= w * h) by nia.
  assert (H0 : 0 <= Z.of_nat k * w) by nia.
  destruct (Z.of_nat k * w <? 0) eqn:E1; [lia|].
  destruct (Z.of_nat k * w + w <? 0) eqn:E2; [lia|].
  rewrite !Z.min_l by lia.
  replace (Z.of_nat k * w + w - Z.of_nat k * w) with w by lia.
  rewrite Z2Nat.inj_mul, Nat2Z.id by lia. reflexivity.
Qed.

Lemma chunks_map {A} (w n : nat) (l : list A) :
  chunks w n l = map (fun k => firstn w (skipn (k * w) l)) (seq 0 n).
Proof.
  revert l. induction n as [|n IH]; intros l; simpl; [reflexivity|].
  f_equal. rewrite IH, <- seq_shift, map_map.
  apply map_ext. intros k. rewrite skipn_skipn. f_equal. f_equal. lia.
Qed.

Lemma chunks_length {A} (w n : nat) (l : list A) : length (chunks w n l) = n.
Proof. revert l. induction n; intros l; simpl; [reflexivity | now rewrite IHn]. Qed.

Lemma chunks_width {A} (w n : nat) (l : list A) :
  length l = (w * n)%nat -> Forall (fun r => length r = w) (chunks w n l).
Proof.
  revert l. induction n as [|n IH]; intros l Hl; simpl; constructor.
  - rewrite length_take. lia.
  - apply IH. rewrite length_drop. lia.
Qed.

Lemma chunks_concat {A} (w n : nat) (l : list A) :
  length l = (w * n)%nat -> concat (chunks w n l) = l.
Proof.
  revert l. induction n as [|n IH]; intros l Hl; simpl.
  - destruct l; [reflexivity | simpl in Hl; lia].
  - rewrite IH by (rewrite length_drop; lia). apply take_drop.
Qed.

Lemma Forall_slice {A} (Q : A -> Prop) (l : list A) i j :
  Forall Q l -> Forall Q (slice l i j).
Proof. intros H. unfold slice. now apply Forall_take, Forall_drop. Qed.

(* ================================================================== *)
(** * Strings: characters, [join] and [split] *)
(* ================================================================== *)

Lemma chars_app a b : chars (a ++ b)%string = (chars a ++ chars b)%list.
Proof. induction a as [|c a IH]; simpl; [reflexivity | now rewrite <- IH]. Qed.

Lemma chars_length s : length (chars s) = String.length s.
Proof. induction s as [|c s IH]; simpl; [reflexivity | now rewrite IH]. Qed.

Lemma chars_join_empty l : chars (join "" l) = flat_map chars l.
Proof.
  unfold join. induction l as [|x [|y l] IH].
  - reflexivity.
  - simpl. now rewrite app_nil_r.
  - change (String.concat "" (x :: y :: l))
      with (x ++ "" ++ String.concat "" (y :: l))%string.
    rewrite !chars_app, IH. reflexivity.
Qed.

Lemma chars_join sep l c :
  In c (chars (join sep l)) ->
  In c (chars sep) \/ exists x, In x l /\ In c (chars x).
Proof.
  unfold join. induction l as [|x [|y l] IH]; intros H.
  - destruct H.
  - right. exists x. split; [now left | exact H].
  - change (String.concat sep (x :: y :: l))
      with (x ++ sep ++ String.concat sep (y :: l))%string in H.
    rewrite !chars_app in H. apply in_app_or in H as [H|H].
    + right. exists x. split; [now left | exact H].
    + apply in_app_or in H as [H|H]; [now left|].
      destruct (IH H) as [H'|(z & Hz & H')]; [now left|].
      right. exists z. split; [now right | exact H'].
Qed.

Lemma row_text_chars row :
  length (chars (row_text row)) = length row
  /\ Forall (fun c => In c (chars ASCII_CHARS)) (chars (row_text row)).
Proof.
  unfold row_text. rewrite chars_join_empty.
  induction row as [|v row [IHl IHf]]; simpl; [split; [reflexivity|constructor]|].
  destruct (spec_glyph_char v) as (c & -> & Hc). simpl.
  split; [now rewrite IHl | now constructor].
Qed.

Lemma row_text_length row : str_len (row_text row) = len row.
Proof.
  unfold str_len, len. rewrite <- chars_length.
  now rewrite (proj1 (row_text_chars row)).
Qed.

Lemma ramp_has_no_newline : ~ In newline (chars ASCII_CHARS).
Proof.
  simpl. unfold newline. intros H.
  repeat (destruct H as [H|H]; [discriminate|]). exact H.
Qed.

Lemma row_text_no_newline row : ~ In newline (chars (row_text row)).
Proof.
  intros H. destruct (row_text_chars row) as [_ Hf].
  rewrite List.Forall_forall in Hf. apply ramp_has_no_newline. now apply Hf.
Qed.

Lemma split_line c x :
  ~ In c (chars x) -> split c x = [x].
Proof.
  induction x as [|a x IH]; simpl; intros H; [reflexivity|].
  destruct (Ascii.eqb a c) eqn:E.
  - apply Ascii.eqb_eq in E. subst. exfalso. apply H. now left.
  - rewrite IH; [reflexivity|]. intros H'. apply H. now right.
Qed.

Lemma split_first c x t :
  ~ In c (chars x) -> split c (x ++ String c t)%string = x :: split c t.
Proof.
  induction x as [|a x IH]; simpl; intros H.
  - now rewrite Ascii.eqb_refl.
  - destruct (Ascii.eqb a c) eqn:E.
    + apply Ascii.eqb_eq in E. subst. exfalso. apply H. now left.
    + rewrite IH; [reflexivity|]. intros H'. apply H. now right.
Qed.

Lemma split_join rows :
  rows <> [] ->
  Forall (fun r => ~ In newline (chars r)) rows ->
  split newline (join nl rows) = rows.
Proof.
  unfold join. induction rows as [|x [|y l] IH]; intros Hne Hf.
  - contradiction.
  - simpl. apply split_line. now inversion Hf.
  - change (String.concat nl (x :: y :: l))
      with (x ++ String newline (String.concat nl (y :: l)))%string.
    inversion Hf as [|? ? Hx Hl]; subst.
    rewrite split_first by assumption. f_equal. apply IH; [discriminate | assumption].
Qed.

Lemma join_nonempty sep x l :
  x <> EmptyString -> join sep (x :: l) <> EmptyString.
Proof.
  unfold join. intros Hx. destruct x as [|a x]; [contradiction|].
  destruct l; simpl; discriminate.
Qed.

(* ================================================================== *)
(** * A successful conversion *)
(* ================================================================== *)

Ltac run_bind H :=
  etransitivity;
  [ eapply bind_ok; unfold lift, get_width;
    first [ rewrite H; reflexivity | reflexivity ]
  | cbv beta ].

Section Success.

Context {P : PIL} {R : Type}.

Lemma row_run (s : state R) (row : list Z) :
  cls_ASCII_CHARS s = ASCII_CHARS ->
  Forall (fun v => 0 <= v <= 255) row ->
  for_each _pixel_to_ascii row s = (Ok (map spec_glyph row), s).
Proof.
  intros Hc Hrow. apply for_each_ok.
  eapply List.Forall_impl; [|exact Hrow]. intros v Hv. simpl.
  now rewrite pixel_to_ascii_run, Hc, glyph_of_byte.
Qed.

(** The body of the [try] from the point where the resized image's
    samples are known. *)
Lemma convert_body_grid (s : state R) data im0 im ow oh h im' px :
  cls_ASCII_CHARS s = ASCII_CHARS ->
  1 <= width (self s) ->
  Image_open data = Ok im0 ->
  convert im0 "L" = Ok im ->
  size im = (ow, oh) ->
  new_height (width (self s)) ow oh = Ok h ->
  0 <= h ->
  resize im (width (self s), h) = Ok im' ->
  getdata im' = Ok px ->
  len px = width (self s) * h ->
  Forall (fun v => 0 <= v <= 255) px ->
  convert_body data s = (Ok (join nl (grid_text (width (self s)) h px)), s).
Proof.
  intros Hc Hw Ho Hcv Hsz Hh Hh0 Hr Hg Hl Hpx.
  unfold convert_body.
  run_bind Ho. run_bind Hcv. rewrite Hsz. cbv beta iota.
  run_bind Hw. run_bind Hh. run_bind Hw. run_bind Hr. run_bind Hg.
  run_bind Hw.
  assert (Hrange := range_rows (width (self s)) h Hw Hh0).
  rewrite <- Hl in Hrange. run_bind Hrange.
  etransitivity.
  { eapply bind_ok.
    apply (for_each_ok _
             (fun i => row_text (slice px i (i + width (self s))))).
    apply List.Forall_forall. intros i _.
    run_bind Hw.
    etransitivity; [eapply bind_ok; apply row_run;
                    [assumption | now apply Forall_slice]|].
    reflexivity. }
  cbv beta. unfold ret. f_equal. f_equal. unfold grid_text.
  rewrite chunks_map, !map_map. f_equal. apply map_ext_in. intros k Hk.
  apply in_seq in Hk. f_equal. apply (slice_row px _ h); [assumption.. | lia].
Qed.

End Success.

(* ================================================================== *)
(** * The raw decoder meets the resampler contract *)
(* ================================================================== *)

Lemma nth_in_range (l : list Z) n :
  Forall (fun v => 0 <= v <= 255) l -> 0 <= nth n l 0 <= 255.
Proof.
  intros H. revert n. induction H as [|v l Hv _ IH]; intros [|n]; simpl; auto; lia.
Qed.

Lemma flat_map_length_const {A B} (f : A -> list B) (n : nat) l :
  (forall a, length (f a) = n) -> length (flat_map f l) = (length l * n)%nat.
Proof.
  intros Hf. induction l as [|a l IH]; simpl; [reflexivity|].
  rewrite length_app, Hf, IH. lia.
Qed.

Lemma raw_laws : PILLaws Raw.pil.
Proof.
  constructor. simpl. intros im0 im im' w h Hc Hr Hw Hh.
  unfold Raw.raw_convert in Hc. destruct (String.eqb "L" "L"); [|discriminate].
  injection Hc as <-.
  unfold Raw.raw_resize in Hr.
  destruct ((w <? 1) || (h <? 1)); [discriminate|]. injection Hr as <-.
  eexists. split; [reflexivity|]. simpl. split.
  - unfold len.
    rewrite (flat_map_length_const _ (Z.to_nat w)).
    + rewrite length_seq. lia.
    + intros y. now rewrite length_map, length_seq.
  - apply Forall_flat_map, List.Forall_forall. intros y _.
    apply List.Forall_forall. intros v Hv. apply in_map_iff in Hv as (x & <- & _).
    unfold Raw.sample. simpl. destruct (Raw.im_size im0) as [ow oh].
    apply nth_in_range.
    apply List.Forall_forall. intros u Hu. apply in_map_iff in Hu as (u0 & <- & _).
    unfold Raw.clamp_byte. lia.
Qed.

(* ================================================================== *)
(** * Truncation *)
(* ================================================================== *)

Lemma cond_Zopp_abs s n : 0 <= n -> Z.abs (cond_Zopp s n) = n.
Proof. intros H. destruct s; simpl; lia. Qed.

Lemma Qabs_sign (s : bool) (v : Q) :
  (0 <= v)%Q -> (Qabs (if s then Qopp v else v) == v)%Q.
Proof.
  intros H. destruct s; [rewrite Qabs_opp|]; now apply Qabs_pos.
Qed.

(** [int] drops the fraction: the magnitude of the result is the largest
    integer not above the magnitude of the float. *)
Lemma int_of_float_trunc x h :
  int_of_float x = Ok h ->
  (inject_Z (Z.abs h) <= Qabs (float_value x))%Q
  /\ (Qabs (float_value x) < inject_Z (Z.abs h) + 1)%Q.
Proof.
  destruct x as [s|s| |s m e]; simpl; try discriminate.
  - intros [= <-]. split; [apply Qle_refl | reflexivity].
  - intros [= <-].
    assert (Hpow : 0 < 2 ^ (- e) \/ 0 <= e).
    { destruct (Z.le_gt_cases 0 e); [now right|left].
      apply Z.pow_pos_nonneg; lia. }
    destruct (0 <=? e) eqn:E.
    + apply Z.leb_le in E.
      assert (Hn : 0 <= Z.pos m * 2 ^ e).
      { apply Z.mul_nonneg_nonneg; [lia | apply Z.pow_nonneg; lia]. }
      rewrite Z.shiftl_mul_pow2 by assumption.
      rewrite cond_Zopp_abs by assumption.
      rewrite Qabs_sign by (unfold Qle; simpl; lia).
      split; [apply Qle_refl|].
      rewrite <- (Qplus_0_r (inject_Z _)) at 1.
      apply Qplus_lt_r. reflexivity.
    + apply Z.leb_gt in E. destruct Hpow as [Hpow|]; [|lia].
      rewrite Z.shiftl_div_pow2 by lia.
      set (d := 2 ^ (- e)) in *.
      assert (Hq : 0 <= Z.pos m / d) by (apply Z.div_pos; lia).
      rewrite cond_Zopp_abs by assumption.
      rewrite Qabs_sign by (unfold Qle; simpl; lia).
      split.
      * unfold Qle. simpl. rewrite Z2Pos.id by assumption.
        pose proof (Z.mul_div_le (Z.pos m) d Hpow). lia.
      * rewrite <- (inject_Z_plus _ 1). unfold Qlt. simpl.
        rewrite Z2Pos.id by assumption.
        pose proof (Z.mul_succ_div_gt (Z.pos m) d Hpow). lia.
Qed.

Lemma new_height_product w ow oh h :
  new_height w ow oh = Ok h ->
  exists x, height_product w ow oh = Ok x /\ int_of_float x = Ok h.
Proof.
  unfold new_height, height_product.
  destruct (int_truediv oh ow) as [a|]; simpl; [|discriminate].
  destruct (int_mul_float w a) as [t|]; simpl; [|discriminate].
  intros H. eauto.
Qed.

(* ================================================================== *)
(** * Shape and alphabet of the output *)
(* ================================================================== *)

Lemma convert_of_body {P : PIL} {R} (s s' : state R) data out :
  convert_body data s = (Ok out, s') ->
  convert_image_to_ascii data s = (Ok out, s').
Proof. intros H. unfold convert_image_to_ascii, try_except. now rewrite H. Qed.

Lemma handler_run {R} (e : exn) (s : state R) :
  exists out, handler e s = (Ok out, s) /\ out <> EmptyString.
Proof.
  unfold handler. destruct (exn_cls e); eexists; (split; [reflexivity | discriminate]).
Qed.

Lemma grid_text_rows w h px :
  1 <= w -> 1 <= h -> len px = w * h ->
  grid_text w h px <> []
  /\ len (grid_text w h px) = h
  /\ Forall (fun line => str_len line = w) (grid_text w h px)
  /\ Forall (fun line => ~ In newline (chars line)) (grid_text w h px).
Proof.
  intros Hw Hh Hl. unfold grid_text.
  assert (Hn : length px = (Z.to_nat w * Z.to_nat h)%nat).
  { unfold len in Hl. lia. }
  split; [|split; [|split]].
  - destruct (Z.to_nat h) eqn:E; [lia | discriminate].
  - unfold len. rewrite length_map, chunks_length. lia.
  - apply Forall_map. eapply List.Forall_impl; [|apply chunks_width, Hn].
    intros row Hrow. simpl in *. rewrite row_text_length. unfold len. lia.
  - apply Forall_map. apply List.Forall_forall. intros row _.
    apply row_text_no_newline.
Qed.

Lemma grid_text_nonempty w h px :
  1 <= w -> 1 <= h -> len px = w * h ->
  join nl (grid_text w h px) <> EmptyString.
Proof.
  intros Hw Hh Hl.
  destruct (grid_text_rows w h px Hw Hh Hl) as (Hne & _ & Hwd & _).
  destruct (grid_text w h px) as [|r rows]; [contradiction|].
  apply join_nonempty. inversion Hwd as [|? ? Hr Hrest].
  destruct r; [|discriminate]. unfold str_len in Hr. simpl in Hr. lia.
Qed.

(** C4: for a decodable image, a width [w >= 1] and a resampled height
    [h >= 1], the output splits on newline into exactly the rows of the
    resampled grid, cut row-major in groups of [w]: there are [h] lines and
    every one of them, the last included, has length [w]. *)
Theorem convert_rows_full_width {P : PIL} (L : PILLaws P) {R}
    (s : state R) (data : list byte) (im0 im im' : image) (ow oh h : Z) :
  cls_ASCII_CHARS s = ASCII_CHARS ->
  1 <= width (self s) ->
  Image_open data = Ok im0 ->
  convert im0 "L" = Ok im ->
  size im = (ow, oh) ->
  new_height (width (self s)) ow oh = Ok h ->
  1 <= h ->
  resize im (width (self s), h) = Ok im' ->
  exists px out,
    getdata im' = Ok px
    /\ len px = width (self s) * h
    /\ concat (chunks (Z.to_nat (width (self s))) (Z.to_nat h) px) = px
    /\ convert_image_to_ascii data s = (Ok out, s)
    /\ split newline out = grid_text (width (self s)) h px
    /\ len (split newline out) = h
    /\ Forall (fun line => str_len line = width (self s)) (split newline out).
Proof.
  intros Hc Hw Ho Hcv Hsz Hh Hh1 Hr.
  destruct (resize_grid _ _ _ _ _ Hcv Hr Hw Hh1) as (px & Hg & Hl & Hpx).
  destruct (grid_text_rows _ _ _ Hw Hh1 Hl) as (Hne & Hlen & Hwd & Hnl).
  exists px, (join nl (grid_text (width (self s)) h px)).
  rewrite split_join by assumption.
  repeat split; try assumption.
  - apply chunks_concat. unfold len in Hl. lia.
  - apply convert_of_body.
    apply (convert_body_grid s data im0 im ow oh h im' px); try assumption; lia.
Qed.

Lemma convert_rows_full_width_witness :
  exists out,
    convert_image_to_ascii (P:=Raw.pil) (Raw.solid 2 4 x80) (fresh (Some 2) tt)
    = (Ok out, fresh (Some 2) tt)
    /\ len (split newline out) = 2.
Proof.
  destruct (convert_rows_full_width raw_laws (fresh (Some 2) tt)
              (Raw.solid 2 4 x80)
              {| Raw.im_size := (2, 4); Raw.im_data := repeat 128 8 |}
              {| Raw.im_size := (2, 4); Raw.im_data := repeat 128 8 |}
              {| Raw.im_size := (2, 2); Raw.im_data := repeat 128 4 |}
              2 4 2)
    as (px & out & _ & _ & _ & Hrun & _ & Hlen & _);
    try reflexivity; try (simpl; lia).
  exists out. split; [exact Hrun | exact Hlen].
Defined.

(** C5: every character of a successful conversion result is a newline or
    one of the ramp characters [@%#*+=-:. ]. *)
Theorem convert_output_in_ramp {P : PIL} {R} (s s' : state R)
    (data : list byte) (out : string) :
  cls_ASCII_CHARS s = ASCII_CHARS ->
  convert_body data s = (Ok out, s') ->
  convert_image_to_ascii data s = (Ok out, s)
  /\ Forall (fun c => c = newline \/ In c (chars ASCII_CHARS)) (chars out).
Proof.
  intros Hc H.
  pose proof (convert_body_state data s) as Hs. rewrite H in Hs. simpl in Hs.
  subst s'. split; [now apply convert_of_body|].
  unfold convert_body in H.
  apply bind_inv in H as (im0 & s1 & H1 & H). injection H1 as _ <-.
  apply bind_inv in H as (im & s1 & H1 & H). injection H1 as _ <-.
  destruct (size im) as [ow oh].
  apply bind_inv in H as (w & s1 & H1 & H). injection H1 as _ <-.
  apply bind_inv in H as (h & s1 & H1 & H). injection H1 as _ <-.
  apply bind_inv in H as (w' & s1 & H1 & H). injection H1 as _ <-.
  apply bind_inv in H as (im' & s1 & H1 & H). injection H1 as _ <-.
  apply bind_inv in H as (px & s1 & H1 & H). injection H1 as _ <-.
  apply bind_inv in H as (w'' & s1 & H1 & H). injection H1 as _ <-.
  apply bind_inv in H as (starts & s1 & H1 & H). injection H1 as _ <-.
  apply bind_inv in H as (art & s1 & Hrows & H). injection H as <- _.
  apply (for_each_inv _ (fun t => cls_ASCII_CHARS t = ASCII_CHARS)
           (fun r => Forall (fun c => In c (chars ASCII_CHARS)) (chars r)))
    in Hrows as [Hrows _]; [|clear|assumption].
  - apply List.Forall_forall. intros c Hin.
    apply chars_join in Hin as [Hin|(r & Hr & Hin)].
    + left. destruct Hin as [<-|[]]. reflexivity.
    + right. rewrite List.Forall_forall in Hrows.
      specialize (Hrows r Hr). rewrite List.Forall_forall in Hrows. auto.
  - intros i t b t' Ht Hb.
    apply bind_inv in Hb as (wi & t1 & H1 & Hb). injection H1 as _ <-.
    apply bind_inv in Hb as (glyphs & t1 & Hg & Hb). injection Hb as <- <-.
    apply (for_each_inv _ (fun t => cls_ASCII_CHARS t = ASCII_CHARS)
             (fun g => exists c, g = String c EmptyString
                                 /\ In c (chars ASCII_CHARS)))
      in Hg as [Hg Ht1]; [| |assumption].
    + split; [|assumption]. rewrite chars_join_empty.
      apply Forall_flat_map. eapply List.Forall_impl; [|exact Hg].
      intros g (c & -> & Hin). simpl. now constructor.
    + intros v u g u' Hu Hv. rewrite pixel_to_ascii_run, Hu in Hv.
      injection Hv as Hv <-. split; [|assumption].
      unfold glyph_of in Hv. destruct (index_of ASCII_CHARS v); [|discriminate].
      simpl in Hv. now apply str_getitem_char in Hv.
Qed.

Lemma convert_output_in_ramp_witness :
  Forall (fun c => c = newline \/ In c (chars ASCII_CHARS))
         (chars ("++" ++ nl ++ "++")).
Proof.
  apply (convert_output_in_ramp (P:=Raw.pil) (fresh (Some 2) tt)
           (fresh (Some 2) tt) (Raw.solid 2 4 x80));
    vm_compute; reflexivity.
Defined.

(* ================================================================== *)
(** * The target height *)
(* ================================================================== *)

Section Height.

Context {P : PIL} {R : Type}.

Lemma convert_body_resize_raises (s : state R) data im0 im ow oh h e :
  Image_open data = Ok im0 ->
  convert im0 "L" = Ok im ->
  size im = (ow, oh) ->
  new_height (width (self s)) ow oh = Ok h ->
  resize im (width (self s), h) = Raise e ->
  convert_body data s = (Raise e, s).
Proof.
  intros Ho Hcv Hsz Hh Hr. unfold convert_body.
  run_bind Ho. run_bind Hcv. rewrite Hsz. cbv beta iota.
  etransitivity; [eapply bind_ok; reflexivity | cbv beta].
  run_bind Hh.
  etransitivity; [eapply bind_ok; reflexivity | cbv beta].
  apply bind_raise. unfold lift. now rewrite Hr.
Qed.

Lemma convert_body_empty_grid (s : state R) data im0 im ow oh h im' :
  1 <= width (self s) ->
  Image_open data = Ok im0 ->
  convert im0 "L" = Ok im ->
  size im = (ow, oh) ->
  new_height (width (self s)) ow oh = Ok h ->
  resize im (width (self s), h) = Ok im' ->
  getdata im' = Ok [] ->
  convert_body data s = (Ok EmptyString, s).
Proof.
  intros Hw Ho Hcv Hsz Hh Hr Hg. unfold convert_body.
  run_bind Ho. run_bind Hcv. rewrite Hsz. cbv beta iota.
  run_bind Hw. run_bind Hh. run_bind Hw. run_bind Hr. run_bind Hg.
  run_bind Hw.
  assert (Hrange := range_rows (width (self s)) 0 Hw (Z.le_refl 0)).
  rewrite Z.mul_0_r in Hrange. change (len (@nil Z)) with 0.
  run_bind Hrange. reflexivity.
Qed.

Lemma range_first n w :
  1 <= w -> 1 <= n -> exists rest, range 0 n w = Ok (0 :: rest).
Proof.
  intros Hw Hn. unfold range, range_length.
  destruct (w =? 0) eqn:E; [lia|]. destruct (0 <? w) eqn:E'; [|lia].
  assert (Hq : 1 <= (n - 0 + w - 1) / w) by (apply Z.div_le_lower_bound; lia).
  destruct (Z.to_nat ((n - 0 + w - 1) / w)) as [|k] eqn:Ek; [lia|].
  simpl. eauto.
Qed.

Lemma slice_first {A} (p : A) (l : list A) w :
  1 <= w -> exists rest, slice (p :: l) 0 (0 + w) = p :: rest.
Proof.
  intros Hw. unfold slice, slice_bound.
  assert (Hl : 1 <= len (p :: l)) by (unfold len; simpl; lia).
  destruct (0 <? 0) eqn:E0; [lia|]. destruct (0 + w <? 0) eqn:E1; [lia|].
  rewrite (Z.min_l 0) by lia. simpl skipn.
  destruct (Z.to_nat (Z.min (0 + w) (len (p :: l)) - 0)) as [|k] eqn:Ek; [lia|].
  simpl. eauto.
Qed.

Lemma pixel_to_ascii_nonempty (s s' : state R) v g :
  _pixel_to_ascii v s = (Ok g, s') -> g <> EmptyString.
Proof.
  rewrite pixel_to_ascii_run. intros [= Hg _]. unfold glyph_of in Hg.
  destruct (index_of _ v); [|discriminate]. simpl in Hg.
  apply str_getitem_char in Hg as (c & -> & _). discriminate.
Qed.

(** A body that returns the empty string has come all the way through
    with a resized image that holds no samples. *)
Lemma convert_body_empty_inv (s s' : state R) data :
  1 <= width (self s) ->
  convert_body data s = (Ok EmptyString, s') ->
  exists im0 im h im',
    Image_open data = Ok im0
    /\ convert im0 "L" = Ok im
    /\ new_height (width (self s)) (fst (size im)) (snd (size im)) = Ok h
    /\ resize im (width (self s), h) = Ok im'
    /\ getdata im' = Ok [].
Proof.
  intros Hw H. unfold convert_body in H.
  apply bind_inv in H as (im0 & s1 & H1 & H). injection H1 as Ho <-.
  apply bind_inv in H as (im & s1 & H1 & H). injection H1 as Hcv <-.
  destruct (size im) as [ow oh] eqn:Hsz.
  apply bind_inv in H as (w & s1 & H1 & H). injection H1 as <- <-.
  apply bind_inv in H as (h & s1 & H1 & H). injection H1 as Hh <-.
  apply bind_inv in H as (w' & s1 & H1 & H). injection H1 as <- <-.
  apply bind_inv in H as (im' & s1 & H1 & H). injection H1 as Hr <-.
  apply bind_inv in H as (px & s1 & H1 & H). injection H1 as Hg <-.
  apply bind_inv in H as (w'' & s1 & H1 & H). injection H1 as <- <-.
  apply bind_inv in H as (starts & s1 & H1 & H). injection H1 as Hrange <-.
  apply bind_inv in H as (art & s1 & Hrows & H). injection H as Hout _.
  exists im0, im, h, im'.
  split; [assumption|]. split; [assumption|].
  split; [rewrite Hsz; exact Hh|]. split; [assumption|].
  destruct px as [|p px]; [assumption|]. exfalso.
  destruct (range_first (len (p :: px)) (width (self s)) Hw) as [rest Hrest].
  { unfold len. simpl. lia. }
  rewrite Hrest in Hrange. injection Hrange as <-.
  simpl in Hrows.
  apply bind_inv in Hrows as (row & u1 & Hrow & Hrows).
  apply bind_inv in Hrows as (rows & u2 & _ & Hrows). injection Hrows as <- _.
  apply bind_inv in Hrow as (wi & t1 & H1 & Hrow). injection H1 as <- <-.
  destruct (slice_first p px (width (self s)) Hw) as [tl Htl].
  rewrite Htl in Hrow.
  apply bind_inv in Hrow as (glyphs & t1 & Hgl & Hrow). injection Hrow as <- _.
  simpl in Hgl.
  apply bind_inv in Hgl as (g & t2 & Hg1 & Hgl).
  apply bind_inv in Hgl as (gs & t3 & _ & Hgl). injection Hgl as <- _.
  apply pixel_to_ascii_nonempty in Hg1.
  revert Hout. apply join_nonempty. now apply join_nonempty.
Qed.

End Height.

(** C2, counterexample: the height is not clamped.  For an image 1000 wide
    and 1 high at width 40 the computed height is 0; the raw decoder's
    resampler is asked for 40 by 0 and refuses. *)
Lemma height_zero_not_clamped :
  new_height 40 1000 1 = Ok 0
  /\ ~ (exists h, new_height 40 1000 1 = Ok h /\ 1 <= h)
  /\ fst (convert_image_to_ascii (P:=Raw.pil) (Raw.solid 1000 1 x80)
            (fresh (Some 40) tt))
     = Ok "[Error converting image: height and width must be > 0]".
Proof.
  split; [vm_compute; reflexivity|]. split.
  - intros (h & Hh & H1). vm_compute in Hh. injection Hh as <-. lia.
  - vm_compute. reflexivity.
Qed.

(** C2, amended: for a decodable image and a width [w >= 1] the target
    height is [int(w * (orig_height / orig_width) * 0.5)], handed to
    [resize] as computed, with no lower bound: it is 0 for an image 1000
    wide and 1 high at width 40.  The result is the empty string exactly
    when [resize] succeeds and the resized image holds no samples; in every
    other case it is non-empty, in particular when the height is at least
    1 and the resize succeeds (an image 1 wide and 1000 high at width 40
    has height 20000) and when [resize] raises (a placeholder). *)
Theorem height_unclamped {P : PIL} (L : PILLaws P) {R}
    (s : state R) (data : list byte) (im0 im : image) (ow oh h : Z) :
  cls_ASCII_CHARS s = ASCII_CHARS ->
  1 <= width (self s) ->
  Image_open data = Ok im0 ->
  convert im0 "L" = Ok im ->
  size im = (ow, oh) ->
  new_height (width (self s)) ow oh = Ok h ->
  (forall im', 1 <= h -> resize im (width (self s), h) = Ok im' ->
     exists out, convert_image_to_ascii data s = (Ok out, s)
                 /\ out <> EmptyString)
  /\ (forall e, resize im (width (self s), h) = Raise e ->
        exists out, convert_image_to_ascii data s = (Ok out, s)
                    /\ handler e s = (Ok out, s)
                    /\ out <> EmptyString)
  /\ (exists out,
        convert_image_to_ascii data s = (Ok out, s)
        /\ (out = EmptyString <->
            exists im', resize im (width (self s), h) = Ok im'
                        /\ getdata im' = Ok []))
  /\ new_height 40 1 1000 = Ok 20000
  /\ new_height 40 1000 1 = Ok 0.
Proof.
  intros Hc Hw Ho Hcv Hsz Hh. split; [|split; [|split; [|split]]].
  - intros im' Hh1 Hr.
    destruct (resize_grid _ _ _ _ _ Hcv Hr Hw Hh1) as (px & Hg & Hl & Hpx).
    exists (join nl (grid_text (width (self s)) h px)). split.
    + apply convert_of_body.
      apply (convert_body_grid s data im0 im ow oh h im' px); try assumption; lia.
    + now apply grid_text_nonempty.
  - intros e Hr.
    pose proof (convert_body_resize_raises s data _ _ _ _ _ _ Ho Hcv Hsz Hh Hr) as Hb.
    destruct (handler_run e s) as (out & Hrun & Hne).
    exists out. split; [|split; assumption].
    unfold convert_image_to_ascii, try_except. now rewrite Hb.
  - assert (Hempty : forall im', resize im (width (self s), h) = Ok im' ->
                                 getdata im' = Ok [] ->
                                 convert_image_to_ascii data s = (Ok EmptyString, s)).
    { intros im' Hr Hg. apply convert_of_body.
      now apply (convert_body_empty_grid s data im0 im ow oh h im'). }
    pose proof (convert_body_state data s) as Hs.
    destruct (convert_body data s) as [[out|e] s1] eqn:Hb; simpl in Hs; subst s1.
    + exists out. split; [now apply convert_of_body|]. split.
      * intros ->.
        destruct (convert_body_empty_inv s s data Hw Hb)
          as (im0' & im1 & h' & im' & Ho' & Hcv' & Hh' & Hr' & Hg').
        rewrite Ho in Ho'. injection Ho' as <-.
        rewrite Hcv in Hcv'. injection Hcv' as <-.
        rewrite Hsz in Hh'. simpl in Hh'. rewrite Hh in Hh'. injection Hh' as <-.
        now exists im'.
      * intros (im' & Hr & Hg). specialize (Hempty im' Hr Hg).
        apply convert_of_body in Hb. rewrite Hb in Hempty. now injection Hempty.
    + destruct (handler_run e s) as (out & Hrun & Hne).
      exists out. split.
      * unfold convert_image_to_ascii, try_except. now rewrite Hb.
      * split; [intros ->; contradiction|].
        intros (im' & Hr & Hg). specialize (Hempty im' Hr Hg).
        unfold convert_image_to_ascii, try_except in Hempty.
        rewrite Hb, Hrun in Hempty. now injection Hempty.
  - vm_compute. reflexivity.
  - vm_compute. reflexivity.
Qed.

Lemma height_unclamped_witness :
  exists out,
    convert_image_to_ascii (P:=Raw.pil) (Raw.solid 2 4 x80) (fresh (Some 2) tt)
    = (Ok out, fresh (Some 2) tt)
    /\ out <> EmptyString.
Proof.
  destruct (height_unclamped raw_laws (fresh (Some 2) tt)
              (Raw.solid 2 4 x80)
              {| Raw.im_size := (2, 4); Raw.im_data := repeat 128 8 |}
              {| Raw.im_size := (2, 4); Raw.im_data := repeat 128 8 |}
              2 4 2)
    as (Hok & _); try reflexivity; try (simpl; lia).
  apply (Hok {| Raw.im_size := (2, 2); Raw.im_data := repeat 128 4 |});
    [lia | reflexivity].
Defined.

(** C3, counterexample: for an image 4 wide and 7 high at width 2 the
    product is 1.75; the code's height is 1, [round] gives 2. *)
Lemma height_is_not_rounded :
  height_product 2 4 7 = Ok (S754_finite false 7881299347898368 (-52))
  /\ new_height 2 4 7 = Ok 1
  /\ spec_new_height 2 4 7 = Ok 2
  /\ new_height 2 4 7 <> spec_new_height 2 4 7.
Proof.
  repeat split; try (vm_compute; reflexivity).
  vm_compute. discriminate.
Qed.

(** C3, amended: for a decodable image of [orig_width] by [orig_height]
    and a width [w >= 1], the target height used for resampling is
    [int(w * (orig_height / orig_width) * 0.5)]: the double-precision
    product with its fraction dropped, so its magnitude is the largest
    integer not above the product's; a successful conversion has that many
    lines. *)
Theorem height_is_truncation {P : PIL} (L : PILLaws P) {R}
    (s : state R) (data : list byte) (im0 im : image) (ow oh h : Z) :
  cls_ASCII_CHARS s = ASCII_CHARS ->
  1 <= width (self s) ->
  Image_open data = Ok im0 ->
  convert im0 "L" = Ok im ->
  size im = (ow, oh) ->
  new_height (width (self s)) ow oh = Ok h ->
  exists x,
    height_product (width (self s)) ow oh = Ok x
    /\ int_of_float x = Ok h
    /\ (inject_Z (Z.abs h) <= Qabs (float_value x))%Q
    /\ (Qabs (float_value x) < inject_Z (Z.abs h) + 1)%Q
    /\ (forall im', 1 <= h -> resize im (width (self s), h) = Ok im' ->
          exists out, convert_image_to_ascii data s = (Ok out, s)
                      /\ len (split newline out) = h).
Proof.
  intros Hc Hw Ho Hcv Hsz Hh.
  destruct (new_height_product _ _ _ _ Hh) as (x & Hx & Hi).
  destruct (int_of_float_trunc x h Hi) as [Hlo Hhi].
  exists x. repeat split; try assumption.
  intros im' Hh1 Hr.
  destruct (resize_grid _ _ _ _ _ Hcv Hr Hw Hh1) as (px & Hg & Hl & Hpx).
  destruct (grid_text_rows _ _ _ Hw Hh1 Hl) as (Hne & Hlen & Hwd & Hnl).
  exists (join nl (grid_text (width (self s)) h px)). split.
  - apply convert_of_body.
    apply (convert_body_grid s data im0 im ow oh h im' px); try assumption; lia.
  - now rewrite split_join.
Qed.

Lemma height_is_truncation_witness :
  exists x,
    height_product 2 4 7 = Ok x
    /\ (inject_Z 1 <= Qabs (float_value x))%Q
    /\ (Qabs (float_value x) < inject_Z 1 + 1)%Q.
Proof.
  destruct (height_is_truncation raw_laws (fresh (Some 2) tt)
              (Raw.solid 4 7 x80)
              {| Raw.im_size := (4, 7); Raw.im_data := repeat 128 28 |}
              {| Raw.im_size := (4, 7); Raw.im_data := repeat 128 28 |}
              4 7 1)
    as (x & Hx & _ & Hlo & Hhi & _); try reflexivity; try (simpl; lia).
  exists x. split; [exact Hx | split; [exact Hlo | exact Hhi]].
Defined.

Lemma convert_never_raises_witness :
  convert_image_to_ascii (P:=Raw.pil) [] (fresh None tt)
  = (Ok "[Image format not supported]", fresh None tt).
Proof.
  destruct (convert_never_raises (P:=Raw.pil) (fresh None tt) [])
    as (out & Hrun & Hopen & _).
  rewrite Hrun. f_equal. f_equal.
  apply (Hopen (Exn UnidentifiedImageError "cannot identify image file"));
    reflexivity.
Defined.

Lemma convert_deterministic_witness :
  fst (convert_image_to_ascii (P:=Raw.pil) (Raw.solid 2 4 x80) (fresh (Some 2) 0%nat))
  = fst (convert_image_to_ascii (P:=Raw.pil) (Raw.solid 2 4 x80) (fresh (Some 2) 1%nat)).
Proof.
  apply (convert_deterministic (P:=Raw.pil) (fresh (Some 2) 0%nat)
           (fresh (Some 2) 1%nat) (Raw.solid 2 4 x80) (Raw.solid 2 4 x80));
    reflexivity.
Defined.

(* ================================================================== *)
(** * Where the width comes from *)
(* ================================================================== *)

(** C9: the message view builds its converter with no argument, so the
    width it renders at is the constructor's default 40 and the
    configuration is not consulted: with [ascii_art_width] set to 80 in
    [config.json], [Config.ascii_art_width] is 80 and the view's converter
    still has width 40. *)
Theorem chat_view_width_ignores_config {H D C} (t : H) (d : D) (c : C) :
  Config.ascii_art_width
    (Config._load_config
       (Some (Config.JObject {[ "ascii_art_width" := Config.JInt 80 ]})) "" "")
  = Ok (Config.JInt 80)
  /\ width (ChatView.image_converter (ChatView.__init__ t d c)) = 40.
Proof. split; [vm_compute; reflexivity | reflexivity]. Qed.

(* ================================================================== *)
(** * More on quantization *)
(* ================================================================== *)

Lemma ramp_injective i j :
  0 <= i <= 9 -> 0 <= j <= 9 ->
  String.get (Z.to_nat i) ASCII_CHARS = String.get (Z.to_nat j) ASCII_CHARS ->
  i = j.
Proof.
  intros Hi Hj.
  assert (Ei : i = 0 \/ i = 1 \/ i = 2 \/ i = 3 \/ i = 4 \/ i = 5 \/ i = 6
               \/ i = 7 \/ i = 8 \/ i = 9) by lia.
  assert (Ej : j = 0 \/ j = 1 \/ j = 2 \/ j = 3 \/ j = 4 \/ j = 5 \/ j = 6
               \/ j = 7 \/ j = 8 \/ j = 9) by lia.
  repeat (destruct Ei as [->|Ei]);
    try subst i; (repeat (destruct Ej as [->|Ej])); try subst j;
    intros H; first [reflexivity | vm_compute in H; discriminate].
Qed.

Lemma spec_glyph_injective v1 v2 :
  spec_glyph v1 = spec_glyph v2 -> spec_index v1 = spec_index v2.
Proof.
  intros H. pose proof (spec_index_range v1) as H1.
  pose proof (spec_index_range v2) as H2.
  apply ramp_injective; try assumption.
  unfold spec_glyph in H.
  destruct (get_lt (Z.to_nat (spec_index v1)) ASCII_CHARS) as [c1 E1].
  { change (String.length ASCII_CHARS) with 10%nat. lia. }
  destruct (get_lt (Z.to_nat (spec_index v2)) ASCII_CHARS) as [c2 E2].
  { change (String.length ASCII_CHARS) with 10%nat. lia. }
  rewrite E1, E2 in *. congruence.
Qed.

(** X1: brightness order is kept: a brighter sample never gets a ramp
    index below that of a darker one. *)
Theorem pixel_index_monotone {R} (s : state R) (v1 v2 : Z) :
  cls_ASCII_CHARS s = ASCII_CHARS ->
  0 <= v1 -> v1 <= v2 -> v2 <= 255 ->
  exists i1 i2,
    pixel_index v1 s = (Ok i1, s)
    /\ pixel_index v2 s = (Ok i2, s)
    /\ i1 <= i2.
Proof.
  intros Hc H0 H12 H2. exists (spec_index v1), (spec_index v2).
  rewrite !pixel_index_run, Hc, !index_of_byte by lia.
  repeat split. rewrite !spec_index_floor by lia.
  apply Z.div_le_mono; lia.
Qed.

Lemma pixel_index_monotone_witness :
  exists i1 i2,
    pixel_index 10 (fresh (R:=unit) None tt) = (Ok i1, fresh None tt)
    /\ pixel_index 200 (fresh (R:=unit) None tt) = (Ok i2, fresh None tt)
    /\ i1 <= i2.
Proof.
  apply (pixel_index_monotone (fresh (R:=unit) None tt) 10 200);
    [reflexivity | lia | lia | lia].
Defined.

(** X2: two samples in 0..255 are drawn with the same glyph exactly when
    they fall in the same band [v * 9 // 255]; the last glyph, the space,
    is used for 255 alone. *)
Theorem same_glyph_iff_same_band {R} (s : state R) (v1 v2 : Z) :
  cls_ASCII_CHARS s = ASCII_CHARS ->
  0 <= v1 <= 255 -> 0 <= v2 <= 255 ->
  (_pixel_to_ascii v1 s = _pixel_to_ascii v2 s <-> v1 * 9 / 255 = v2 * 9 / 255)
  /\ (_pixel_to_ascii v1 s = (Ok " ", s) <-> v1 = 255).
Proof.
  intros Hc H1 H2.
  rewrite !pixel_to_ascii_run, Hc, !glyph_of_byte by assumption.
  rewrite <- !spec_index_floor by assumption. split; split.
  - intros [= H]. now apply spec_glyph_injective.
  - intros H. unfold spec_glyph. now rewrite H.
  - intros [= H]. change " " with (spec_glyph 255) in H.
    apply spec_glyph_injective in H.
    rewrite !spec_index_floor in H by lia. change (255 * 9 / 255) with 9 in H.
    destruct (Z.eq_dec v1 255) as [|Hne]; [assumption|].
    assert (v1 * 9 / 255 < 9) by (apply Z.div_lt_upper_bound; lia). lia.
  - intros ->. reflexivity.
Qed.

Lemma same_glyph_iff_same_band_witness :
  _pixel_to_ascii 0 (fresh (R:=unit) None tt)
  = _pixel_to_ascii 28 (fresh (R:=unit) None tt).
Proof.
  apply (same_glyph_iff_same_band (fresh (R:=unit) None tt) 0 28);
    [reflexivity | lia | lia | reflexivity].
Defined.

(* ================================================================== *)
(** * Degenerate widths and images *)
(* ================================================================== *)

Lemma range_nonpositive_step n w starts :
  0 <= n -> w <= 0 -> range 0 n w = Ok starts -> w < 0 /\ starts = [].
Proof.
  intros Hn Hw. unfold range, range_length.
  destruct (w =? 0) eqn:E; [discriminate|]. apply Z.eqb_neq in E.
  destruct (0 <? w) eqn:E'; [lia|].
  intros [= <-]. split; [lia|].
  assert (Hq : (0 - n - w - 1) / - w < 1) by (apply Z.div_lt_upper_bound; lia).
  replace (Z.to_nat ((0 - n - w - 1) / - w)) with 0%nat by lia. reflexivity.
Qed.

(** X3: a converter whose width is zero or negative never returns art: the
    result is a placeholder, or, for a negative width that [resize]
    accepts, the empty string. *)
Theorem nonpositive_width_no_art {P : PIL} {R} (s : state R) (data : list byte) :
  width (self s) <= 0 ->
  exists out,
    convert_image_to_ascii data s = (Ok out, s)
    /\ ((out = EmptyString /\ width (self s) < 0)
        \/ exists e, fst (convert_body data s) = Raise e
                     /\ handler e s = (Ok out, s)).
Proof.
  intros Hw. pose proof (convert_body_state data s) as Hs.
  destruct (convert_body data s) as [[out|e] s1] eqn:H; simpl in Hs; subst s1.
  - exists out. split; [now apply convert_of_body|]. left.
    unfold convert_body in H.
    apply bind_inv in H as (im0 & s1 & H1 & H). injection H1 as _ <-.
    apply bind_inv in H as (im & s1 & H1 & H). injection H1 as _ <-.
    destruct (size im) as [ow oh].
    apply bind_inv in H as (w & s1 & H1 & H). injection H1 as _ <-.
    apply bind_inv in H as (h & s1 & H1 & H). injection H1 as _ <-.
    apply bind_inv in H as (w' & s1 & H1 & H). injection H1 as _ <-.
    apply bind_inv in H as (im' & s1 & H1 & H). injection H1 as _ <-.
    apply bind_inv in H as (px & s1 & H1 & H). injection H1 as _ <-.
    apply bind_inv in H as (w'' & s1 & H1 & H). injection H1 as <- <-.
    apply bind_inv in H as (starts & s1 & H1 & H). injection H1 as Hr <-.
    apply range_nonpositive_step in Hr as [Hneg ->]; [|unfold len; lia|assumption].
    simpl in H. injection H as <-. split; [reflexivity | assumption].
  - destruct (handler_run e s) as (out & Hrun & _).
    exists out. split.
    + unfold convert_image_to_ascii, try_except. now rewrite H.
    + right. exists e. split; [reflexivity | assumption].
Qed.

Lemma nonpositive_width_no_art_witness :
  convert_image_to_ascii (P:=Raw.pil) (Raw.solid 2 4 x80) (fresh (Some 0) tt)
  = (Ok "[Error converting image: height and width must be > 0]",
     fresh (Some 0) tt).
Proof.
  destruct (nonpositive_width_no_art (P:=Raw.pil) (fresh (Some 0) tt)
              (Raw.solid 2 4 x80)) as (out & Hrun & Hcase); [simpl; lia|].
  rewrite Hrun. f_equal. f_equal.
  destruct Hcase as [[_ Hneg]|(e & He & Hh)].
  - simpl in Hneg. lia.
  - vm_compute in He. injection He as <-. vm_compute in Hh. now injection Hh.
Defined.

(** X4: an image that decodes with width 0 is answered with the
    division-by-zero placeholder. *)
Theorem zero_width_image_placeholder {P : PIL} {R} (s : state R)
    (data : list byte) (im0 im : image) (oh : Z) :
  Image_open data = Ok im0 ->
  convert im0 "L" = Ok im ->
  size im = (0, oh) ->
  convert_image_to_ascii data s
  = (Ok "[Error converting image: division by zero]", s).
Proof.
  intros Ho Hcv Hsz.
  assert (Hb : convert_body data s
               = (Raise (Exn ZeroDivisionError "division by zero"), s)).
  { unfold convert_body. run_bind Ho. run_bind Hcv. rewrite Hsz. cbv beta iota.
    etransitivity; [eapply bind_ok; reflexivity | cbv beta].
    apply bind_raise. reflexivity. }
  unfold convert_image_to_ascii, try_except. rewrite Hb. reflexivity.
Qed.

Lemma zero_width_image_placeholder_witness :
  convert_image_to_ascii (P:=Raw.pil) (Raw.solid 0 5 x80) (fresh None tt)
  = (Ok "[Error converting image: division by zero]", fresh None tt).
Proof.
  apply (zero_width_image_placeholder (P:=Raw.pil) (fresh None tt)
           (Raw.solid 0 5 x80)
           {| Raw.im_size := (0, 5); Raw.im_data := [] |}
           {| Raw.im_size := (0, 5); Raw.im_data := [] |} 5);
    reflexivity.
Defined.

(* ================================================================== *)
(** * Size and content of the output *)
(* ================================================================== *)

Lemma spec_glyph_glyph_char v : spec_glyph v = String (glyph_char v) EmptyString.
Proof.
  unfold spec_glyph, glyph_char. pose proof (spec_index_range v) as Hr.
  destruct (get_lt (Z.to_nat (spec_index v)) ASCII_CHARS) as [c Hc].
  { change (String.length ASCII_CHARS) with 10%nat. lia. }
  now rewrite Hc.
Qed.

Lemma row_text_glyphs row : chars (row_text row) = map glyph_char row.
Proof.
  unfold row_text. rewrite chars_join_empty.
  induction row as [|v row IH]; simpl; [reflexivity|].
  now rewrite spec_glyph_glyph_char, IH.
Qed.

Lemma get_nth n s d :
  (n < String.length s)%nat -> String.get n s = Some (nth n (chars s) d).
Proof.
  revert n. induction s as [|a s IH]; intros [|n]; simpl; try lia.
  - reflexivity.
  - intros H. apply IH. lia.
Qed.

Lemma str_len_app a b : str_len (a ++ b)%string = str_len a + str_len b.
Proof.
  unfold str_len. rewrite <- !chars_length, chars_app, length_app. lia.
Qed.

Lemma join_nl_length rows w :
  rows <> [] ->
  Forall (fun line => str_len line = w) rows ->
  str_len (join nl rows) = len rows * (w + 1) - 1.
Proof.
  unfold join. induction rows as [|x [|y l] IH]; intros Hne Hf.
  - contradiction.
  - inversion Hf as [|? ? Hx _]. simpl. unfold len. simpl. lia.
  - change (String.concat nl (x :: y :: l))
      with (x ++ nl ++ String.concat nl (y :: l))%string.
    inversion Hf as [|? ? Hx Hl].
    rewrite !str_len_app, IH by (discriminate || assumption).
    change (str_len nl) with 1. unfold len in *. simpl length in *. lia.
Qed.

(** X5: the output of a successful conversion to [w] columns and [h] rows
    is [h * (w + 1) - 1] characters long: [w] per row and a newline between
    rows, none after the last. *)
Theorem convert_output_length {P : PIL} (L : PILLaws P) {R}
    (s : state R) (data : list byte) (im0 im im' : image) (ow oh h : Z) :
  cls_ASCII_CHARS s = ASCII_CHARS ->
  1 <= width (self s) ->
  Image_open data = Ok im0 ->
  convert im0 "L" = Ok im ->
  size im = (ow, oh) ->
  new_height (width (self s)) ow oh = Ok h ->
  1 <= h ->
  resize im (width (self s), h) = Ok im' ->
  exists out,
    convert_image_to_ascii data s = (Ok out, s)
    /\ str_len out = h * (width (self s) + 1) - 1.
Proof.
  intros Hc Hw Ho Hcv Hsz Hh Hh1 Hr.
  destruct (resize_grid _ _ _ _ _ Hcv Hr Hw Hh1) as (px & Hg & Hl & Hpx).
  destruct (grid_text_rows _ _ _ Hw Hh1 Hl) as (Hne & Hlen & Hwd & Hnl).
  exists (join nl (grid_text (width (self s)) h px)). split.
  - apply convert_of_body.
    apply (convert_body_grid s data im0 im ow oh h im' px); try assumption; lia.
  - rewrite (join_nl_length _ (width (self s))) by assumption. now rewrite Hlen.
Qed.

Lemma convert_output_length_witness :
  exists out,
    convert_image_to_ascii (P:=Raw.pil) (Raw.solid 2 4 x80) (fresh (Some 2) tt)
    = (Ok out, fresh (Some 2) tt)
    /\ str_len out = 5.
Proof.
  apply (convert_output_length raw_laws (fresh (Some 2) tt)
           (Raw.solid 2 4 x80)
           {| Raw.im_size := (2, 4); Raw.im_data := repeat 128 8 |}
           {| Raw.im_size := (2, 4); Raw.im_data := repeat 128 8 |}
           {| Raw.im_size := (2, 2); Raw.im_data := repeat 128 4 |}
           2 4 2);
    try reflexivity; simpl; lia.
Defined.

Lemma nth_map_seq {A} (f : nat -> A) n r d :
  (r < n)%nat -> nth r (map f (seq 0 n)) d = f r.
Proof.
  intros Hr. rewrite (nth_indep _ d (f 0%nat)) by (rewrite length_map, length_seq; lia).
  rewrite map_nth, seq_nth by lia. reflexivity.
Qed.

(** X6: the output is the resampled grid, row-major: the character in
    column [c] of line [r] is the glyph of sample [r * w + c]. *)
Theorem convert_char_at {P : PIL} (L : PILLaws P) {R}
    (s : state R) (data : list byte) (im0 im im' : image) (ow oh h r c : Z) :
  cls_ASCII_CHARS s = ASCII_CHARS ->
  1 <= width (self s) ->
  Image_open data = Ok im0 ->
  convert im0 "L" = Ok im ->
  size im = (ow, oh) ->
  new_height (width (self s)) ow oh = Ok h ->
  resize im (width (self s), h) = Ok im' ->
  0 <= r < h ->
  0 <= c < width (self s) ->
  exists px out,
    getdata im' = Ok px
    /\ convert_image_to_ascii data s = (Ok out, s)
    /\ String.get (Z.to_nat c) (nth (Z.to_nat r) (split newline out) EmptyString)
       = Some (glyph_char (nth (Z.to_nat (r * width (self s) + c)) px 0)).
Proof.
  intros Hc Hw Ho Hcv Hsz Hh Hr Hrow Hcol.
  assert (Hh1 : 1 <= h) by lia.
  destruct (resize_grid _ _ _ _ _ Hcv Hr Hw Hh1) as (px & Hg & Hl & Hpx).
  destruct (grid_text_rows _ _ _ Hw Hh1 Hl) as (Hne & Hlen & Hwd & Hnl).
  exists px, (join nl (grid_text (width (self s)) h px)).
  split; [assumption|]. split.
  - apply convert_of_body.
    apply (convert_body_grid s data im0 im ow oh h im' px); try assumption; lia.
  - rewrite split_join by assumption. unfold grid_text.
    rewrite chunks_map, map_map, nth_map_seq by lia.
    set (wn := Z.to_nat (width (self s))).
    set (row := firstn wn (skipn (Z.to_nat r * wn) px)).
    assert (Hn : length px = (wn * Z.to_nat h)%nat) by (unfold len in Hl; lia).
    assert (Hrl : length row = wn).
    { unfold row. rewrite length_take, length_drop. nia. }
    rewrite (get_nth _ _ (glyph_char 0)).
    + rewrite row_text_glyphs, map_nth. f_equal. f_equal. unfold row.
      rewrite nth_firstn, nth_skipn.
      destruct (Z.to_nat c <? wn)%nat eqn:E; [|apply Nat.ltb_ge in E; lia].
      f_equal. lia.
    + rewrite <- chars_length, row_text_glyphs, length_map. lia.
Qed.

Lemma convert_char_at_witness :
  exists px out,
    getdata (PIL:=Raw.pil) {| Raw.im_size := (2, 2); Raw.im_data := repeat 128 4 |}
    = Ok px
    /\ convert_image_to_ascii (P:=Raw.pil) (Raw.solid 2 4 x80) (fresh (Some 2) tt)
       = (Ok out, fresh (Some 2) tt)
    /\ String.get 1 (nth 1 (split newline out) EmptyString)
       = Some (glyph_char (nth 3 px 0)).
Proof.
  apply (convert_char_at raw_laws (fresh (Some 2) tt)
           (Raw.solid 2 4 x80)
           {| Raw.im_size := (2, 4); Raw.im_data := repeat 128 8 |}
           {| Raw.im_size := (2, 4); Raw.im_data := repeat 128 8 |}
           {| Raw.im_size := (2, 2); Raw.im_data := repeat 128 4 |}
           2 4 2 1 1);
    try reflexivity; simpl; lia.
Defined.

(* ================================================================== *)
(** * Loading the configuration *)
(* ================================================================== *)

Lemma fill_step_lookup (items : list (string * Config.json))
    (config : gmap string Config.json) (k : string) :
  foldl (fun config kv =>
           match config !! kv.1 with
           | None => <[ kv.1 := kv.2 ]> config
           | Some _ => config
           end) config items !! k
  = match config !! k with
    | Some v => Some v
    | None => (list_to_map items : gmap string Config.json) !! k
    end.
Proof.
  revert config. induction items as [|[k0 v0] items IH]; intros config.
  - simpl. rewrite lookup_empty. now destruct (config !! k).
  - rewrite list_to_map_cons. cbn [foldl fst snd]. rewrite IH.
    destruct (decide (k0 = k)) as [->|Hne].
    + rewrite lookup_insert_eq.
      destruct (config !! k) eqn:E; rewrite ?E, ?lookup_insert_eq; reflexivity.
    + rewrite (lookup_insert_ne (list_to_map items)) by assumption.
      destruct (config !! k0) eqn:E; [reflexivity|].
      now rewrite (lookup_insert_ne config) by assumption.
Qed.

Lemma fill_defaults_eq (config : gmap string Config.json) :
  Config.fill_defaults config = config ∪ Config.DEFAULT_CONFIG.
Proof.
  apply map_eq. intros k. unfold Config.fill_defaults.
  rewrite fill_step_lookup, lookup_union.
  unfold Config.DEFAULT_CONFIG.
  destruct (config !! k), (list_to_map Config.DEFAULT_ITEMS !! k); reflexivity.
Qed.

(** X7: after the defaults have been filled in, a key holds the file's
    value when the file has it, the default when only the defaults have
    it, and is absent otherwise: the file always wins. *)
Theorem fill_defaults_union (config : gmap string Config.json) (k : string) :
  Config.fill_defaults config = config ∪ Config.DEFAULT_CONFIG
  /\ Config.fill_defaults config !! k
     = match config !! k with
       | Some v => Some v
       | None => Config.DEFAULT_CONFIG !! k
       end.
Proof.
  split; [apply fill_defaults_eq|].
  rewrite fill_defaults_eq, lookup_union.
  destruct (config !! k), (Config.DEFAULT_CONFIG !! k); reflexivity.
Qed.

Lemma default_keys_cover (m : gmap string Config.json) :
  (forall k, is_Some (Config.DEFAULT_CONFIG !! k) -> is_Some (m !! k)) ->
  m ∪ Config.DEFAULT_CONFIG = m.
Proof.
  intros H. apply map_eq. intros k. rewrite lookup_union.
  destruct (m !! k) eqn:E; [destruct (Config.DEFAULT_CONFIG !! k); reflexivity|].
  destruct (Config.DEFAULT_CONFIG !! k) eqn:E'; [|reflexivity].
  destruct (H k) as [v Hv]; [eexists; exact E' | congruence].
Qed.

Lemma load_object_again (m : gmap string Config.json) (a b : string) :
  (forall k, is_Some (Config.DEFAULT_CONFIG !! k) -> is_Some (m !! k)) ->
  Config._load_config (Some (Config.JObject m)) a b = Config.JObject m.
Proof.
  intros H. unfold Config._load_config, Config.load_parsed.
  now rewrite fill_defaults_eq, default_keys_cover.
Qed.

Lemma load_prompted_again (a b a' b' : string) :
  Config._load_config (Some (Config.prompted a b)) a' b' = Config.prompted a b.
Proof.
  apply load_object_again. intros k Hk.
  rewrite !lookup_insert. repeat case_decide; try now eexists. assumption.
Qed.

(** X8: loading a configuration file that holds what an earlier load
    returned gives it back unchanged, without using what is typed at the
    prompts; this holds for every value the earlier file parsed to, a
    dict or not. *)
Theorem load_config_stable (file : option Config.json)
    (api_id api_hash api_id' api_hash' : string) :
  Config._load_config (Some (Config._load_config file api_id api_hash))
                      api_id' api_hash'
  = Config._load_config file api_id api_hash.
Proof.
  destruct file as [config|]; [|apply load_prompted_again].
  unfold Config._load_config at 2 3.
  destruct (Config.load_parsed config) as [config'|e] eqn:E;
    [|apply load_prompted_again].
  destruct config; simpl in E; try discriminate.
  - destruct (Config.holds_all_keys (Config.JStr s)) eqn:Hk; [|discriminate].
    injection E as <-. unfold Config._load_config, Config.load_parsed.
    now rewrite Hk.
  - destruct (Config.holds_all_keys (Config.JArray l)) eqn:Hk; [|discriminate].
    injection E as <-. unfold Config._load_config, Config.load_parsed.
    now rewrite Hk.
  - injection E as <-. apply load_object_again. intros k [v Hv].
    rewrite fill_defaults_eq, lookup_union, Hv.
    destruct (m !! k); now eexists.
Qed.

(** X9: what the width accessor gives after a load.  Unless [config.json]
    parses to a list or a string that holds all five default keys, the
    loaded configuration is a dict in which [ascii_art_width] is present,
    so the accessor returns the file's value as it is when the file is a
    dict with the key, and 40 otherwise, and its own fallback is never
    what supplies it.  A list or string that holds all five keys is
    returned as the configuration, and the accessor raises
    [AttributeError] on it. *)
Theorem loaded_ascii_art_width (file : option Config.json)
    (api_id api_hash : string) :
  match file with
  | Some (Config.JArray _ as config) | Some (Config.JStr _ as config) =>
      if Config.holds_all_keys config
      then Config._load_config file api_id api_hash = config
           /\ exists msg,
                Config.ascii_art_width (Config._load_config file api_id api_hash)
                = Raise (Exn (OtherException "AttributeError") msg)
      else Config._load_config file api_id api_hash
           = Config.prompted api_id api_hash
           /\ Config.ascii_art_width (Config._load_config file api_id api_hash)
              = Ok (Config.JInt 40)
  | Some (Config.JObject m0) =>
      exists m,
        Config._load_config file api_id api_hash = Config.JObject m
        /\ m !! "ascii_art_width"
           = Some (default (Config.JInt 40) (m0 !! "ascii_art_width"))
        /\ Config.ascii_art_width (Config._load_config file api_id api_hash)
           = Ok (default (Config.JInt 40) (m0 !! "ascii_art_width"))
  | _ =>
      exists m,
        Config._load_config file api_id api_hash = Config.JObject m
        /\ m !! "ascii_art_width" = Some (Config.JInt 40)
        /\ Config.ascii_art_width (Config._load_config file api_id api_hash)
           = Ok (Config.JInt 40)
  end.
Proof.
  assert (Hp : exists m,
             Config.prompted api_id api_hash = Config.JObject m
             /\ m !! "ascii_art_width" = Some (Config.JInt 40)
             /\ Config.ascii_art_width (Config.prompted api_id api_hash)
                = Ok (Config.JInt 40)).
  { eexists. split; [reflexivity|].
    unfold Config.ascii_art_width, Config.prompted.
    rewrite !lookup_insert_ne by discriminate.
    change (Config.DEFAULT_CONFIG !! "ascii_art_width")
      with (Some (Config.JInt 40)).
    split; reflexivity. }
  destruct file as [config|]; [|exact Hp].
  destruct config; try exact Hp.
  - unfold Config._load_config, Config.load_parsed.
    destruct (Config.holds_all_keys (Config.JStr s)).
    + split; [reflexivity | eexists; reflexivity].
    + split; [reflexivity|]. now destruct Hp as (m & _ & _ & ->).
  - unfold Config._load_config, Config.load_parsed.
    destruct (Config.holds_all_keys (Config.JArray l)).
    + split; [reflexivity | eexists; reflexivity].
    + split; [reflexivity|]. now destruct Hp as (m' & _ & _ & ->).
  - exists (Config.fill_defaults m). split; [reflexivity|].
    unfold Config._load_config, Config.load_parsed, Config.ascii_art_width.
    rewrite fill_defaults_eq, lookup_union.
    change (Config.DEFAULT_CONFIG !! "ascii_art_width")
      with (Some (Config.JInt 40)).
    destruct (m !! "ascii_art_width"); split; reflexivity.
Qed.

(* ================================================================== *)
(** * The message buffer of the Telegram handler *)
(* ================================================================== *)

Section Buffer.

Context {Msg : Type}.

Implicit Types (cm : gmap Z (list Msg)) (m : Msg) (c k : Z).

Lemma on_new_message_lookup c m cm k :
  TelegramHandler.on_new_message c m cm !! k
  = if decide (k = c) then Some (take 100 (m :: default [] (cm !! c)))
    else cm !! k.
Proof.
  unfold TelegramHandler.on_new_message. cbv zeta.
  set (cm1 := match cm !! c with
              | Some _ => cm
              | None => <[c:=[]]> cm
              end).
  assert (H1 : default [] (cm1 !! c) = default [] (cm !! c)).
  { unfold cm1. destruct (cm !! c) eqn:E; [now rewrite E|].
    now rewrite lookup_insert_eq. }
  assert (H1' : forall k', k' <> c -> cm1 !! k' = cm !! k').
  { intros k' Hk. unfold cm1. destruct (cm !! c); [reflexivity|].
    now rewrite lookup_insert_ne by congruence. }
  rewrite H1, lookup_insert_eq. cbn [default from_option id].
  set (l := m :: default [] (cm !! c)).
  destruct (100 <? len l) eqn:E; case_decide as Hk; subst.
  - now rewrite lookup_insert_eq.
  - rewrite !lookup_insert_ne by congruence. now apply H1'.
  - rewrite lookup_insert_eq. f_equal. symmetry. apply take_ge.
    apply Z.ltb_ge in E. unfold len in E. lia.
  - rewrite lookup_insert_ne by congruence. now apply H1'.
Qed.

(** X10: after a message of chat [c] arrives, the buffer of [c] is that
    message followed by the earlier ones, cut to the first 100, whether or
    not the chat had a buffer; no other chat's buffer changes. *)
Theorem on_new_message_buffer c m cm :
  TelegramHandler.on_new_message c m cm !! c
  = Some (take 100 (m :: default [] (cm !! c)))
  /\ (exists tl, TelegramHandler.on_new_message c m cm !! c = Some (m :: tl)
                 /\ len (m :: tl) <= 100)
  /\ (forall k, k <> c -> TelegramHandler.on_new_message c m cm !! k = cm !! k).
Proof.
  split; [|split].
  - rewrite on_new_message_lookup. now case_decide.
  - exists (take 99 (default [] (cm !! c))). split.
    + rewrite on_new_message_lookup. now case_decide.
    + unfold len. simpl. rewrite length_take. lia.
  - intros k Hk. rewrite on_new_message_lookup. now case_decide.
Qed.

Lemma take_app_take {A} (a b : list A) n :
  take n (a ++ take n b) = take n (a ++ b).
Proof.
  rewrite !take_app, take_take. f_equal. f_equal. lia.
Qed.

Lemma messages_of_cons c c0 m (events : list (Z * Msg)) :
  messages_of c ((c0, m) :: events)
  = if c0 =? c then m :: messages_of c events else messages_of c events.
Proof. unfold messages_of. simpl. now destruct (c0 =? c). Qed.

(** X11: starting with no buffers, after any run of events the buffer of a
    chat holds the chat's messages newest first, the 100 most recent at
    most, and a chat that got no message has no buffer. *)
Theorem on_new_messages_recent (events : list (Z * Msg)) cm c :
  TelegramHandler.on_new_messages events cm !! c
  = match messages_of c events with
    | [] => cm !! c
    | _ :: _ =>
        Some (take 100 (rev (messages_of c events) ++ default [] (cm !! c)))
    end
  /\ TelegramHandler.on_new_messages events ∅ !! c
     = match messages_of c events with
       | [] => None
       | _ :: _ => Some (take 100 (rev (messages_of c events)))
       end.
Proof.
  assert (Hgen : forall cm',
    TelegramHandler.on_new_messages events cm' !! c
    = match messages_of c events with
      | [] => cm' !! c
      | _ :: _ =>
          Some (take 100 (rev (messages_of c events) ++ default [] (cm' !! c)))
      end).
  { clear cm. induction events as [|[c0 m0] events IH]; intros cm.
    - reflexivity.
    - unfold TelegramHandler.on_new_messages in *. cbn [foldl fst snd].
      rewrite IH, messages_of_cons, on_new_message_lookup.
      destruct (Z.eqb_spec c0 c) as [->|Hne].
      + case_decide; [|congruence]. cbn [default from_option id].
        destruct (messages_of c events) as [|m1 ms] eqn:E.
        * reflexivity.
        * f_equal. rewrite take_app_take. f_equal.
          cbn [rev]. rewrite <- !app_assoc. reflexivity.
      + case_decide; [congruence|]. reflexivity. }
  split; [apply Hgen|].
  rewrite Hgen, lookup_empty. cbn [default from_option id].
  destruct (messages_of c events); [reflexivity|]. now rewrite app_nil_r.
Qed.

End Buffer.

(* ================================================================== *)
(** * Media in the chat view *)
(* ================================================================== *)

Section Media.

Context {P : PIL} {R : Type}.

Lemma convert_total (s : state R) (data : list byte) :
  exists out,
    convert_image_to_ascii data s = (Ok out, s)
    /\ (forall e, fst (convert_body data s) = Raise e ->
                  out <> EmptyString /\ handler e s = (Ok out, s)).
Proof.
  pose proof (convert_body_state data s) as Hs.
  unfold convert_image_to_ascii, try_except.
  destruct (convert_body data s) as [[r|e] s1]; simpl in Hs; subst s1.
  - exists r. split; [reflexivity | intros e [=]].
  - destruct (handler_run e s) as (out & Hrun & Hne).
    exists out. split; [assumption|]. intros e' [= <-]. now split.
Qed.

Lemma media_content_run (s : state R) (data : list byte) (out : string) :
  data <> [] ->
  convert_image_to_ascii data s = (Ok out, s) ->
  ChatView.media_content (Ok (Some data)) s
  = (Ok (if String.eqb out EmptyString
         then ("[Media: Could not render]" ++ nl)%string
         else (nl ++ out ++ nl)%string), s).
Proof.
  intros Hd Hrun. destruct data as [|b data]; [contradiction|].
  unfold ChatView.media_content, try_except, bind, lift. cbv beta iota.
  rewrite Hrun.
  now destruct (String.eqb out EmptyString).
Qed.

(** X12: a conversion that fails is not reported as "Could not render":
    for downloaded bytes on which the converter's body raises, the view
    shows the converter's placeholder between two newlines, in the place
    of the art. *)
Theorem media_failure_shown_as_art (s : state R) (data : list byte) (e : exn) :
  data <> [] ->
  fst (convert_body data s) = Raise e ->
  exists placeholder,
    handler e s = (Ok placeholder, s)
    /\ ChatView.media_content (Ok (Some data)) s
       = (Ok (nl ++ placeholder ++ nl)%string, s)
    /\ ChatView.media_content (Ok (Some data)) s
       <> (Ok ("[Media: Could not render]" ++ nl)%string, s).
Proof.
  intros Hd He.
  destruct (convert_total s data) as (out & Hrun & Hfail).
  destruct (Hfail e He) as [Hne Hh].
  exists out. split; [assumption|].
  rewrite (media_content_run s data out Hd Hrun).
  destruct out as [|a out]; [contradiction|]. simpl. split; [reflexivity|].
  intros [=].
Qed.

End Media.

Lemma media_failure_shown_as_art_witness :
  ChatView.media_content (P:=Raw.pil) (Ok (Some [x00])) (fresh None tt)
  = (Ok (nl ++ "[Image format not supported]" ++ nl)%string, fresh None tt).
Proof.
  destruct (media_failure_shown_as_art (P:=Raw.pil) (fresh None tt) [x00]
              (Exn UnidentifiedImageError "cannot identify image file"))
    as (ph & Hh & Hrun & _); [discriminate | reflexivity |].
  vm_compute in Hh. injection Hh as <-. exact Hrun.
Defined.

(** X13: the chat view draws images 40 columns wide: with the converter
    its constructor builds, a decodable image whose height at width 40 is
    [h >= 1] is shown as [h] lines of 40 characters between two
    newlines. *)
Theorem chat_view_renders_40_columns {P : PIL} (L : PILLaws P) {R H D C}
    (t : H) (d : D) (c : C) (s : state R) (data : list byte)
    (im0 im im' : image) (ow oh h : Z) :
  self s = ChatView.image_converter (ChatView.__init__ t d c) ->
  cls_ASCII_CHARS s = ASCII_CHARS ->
  data <> [] ->
  Image_open data = Ok im0 ->
  convert im0 "L" = Ok im ->
  size im = (ow, oh) ->
  new_height 40 ow oh = Ok h ->
  1 <= h ->
  resize im (40, h) = Ok im' ->
  exists out,
    ChatView.media_content (Ok (Some data)) s = (Ok (nl ++ out ++ nl)%string, s)
    /\ len (split newline out) = h
    /\ Forall (fun line => str_len line = 40) (split newline out).
Proof.
  intros Hself Hc Hd Ho Hcv Hsz Hh Hh1 Hr.
  assert (Hw : width (self s) = 40) by now rewrite Hself.
  rewrite <- Hw in Hh, Hr.
  assert (Hw1 : 1 <= width (self s)) by lia.
  destruct (resize_grid _ _ _ _ _ Hcv Hr Hw1 Hh1) as (px & Hg & Hl & Hpx).
  destruct (grid_text_rows _ _ _ Hw1 Hh1 Hl) as (Hne & Hlen & Hwd & Hnl).
  pose proof (grid_text_nonempty _ _ _ Hw1 Hh1 Hl) as Hnonempty.
  exists (join nl (grid_text (width (self s)) h px)).
  rewrite split_join by assumption.
  split; [|split; [assumption|]].
  2: { eapply List.Forall_impl; [|exact Hwd]. intros line Hline.
       simpl in Hline. congruence. }
  rewrite (media_content_run s data (join nl (grid_text (width (self s)) h px)) Hd).
  - destruct (join nl (grid_text (width (self s)) h px)); [contradiction|reflexivity].
  - apply convert_of_body.
    apply (convert_body_grid s data im0 im ow oh h im' px); try assumption; lia.
Qed.

Lemma chat_view_renders_40_columns_witness :
  exists out,
    ChatView.media_content (P:=Raw.pil) (Ok (Some (Raw.solid 2 1 x80)))
      (fresh None tt)
    = (Ok (nl ++ out ++ nl)%string, fresh None tt)
    /\ len (split newline out) = 10.
Proof.
  destruct (chat_view_renders_40_columns raw_laws tt tt tt (fresh None tt)
              (Raw.solid 2 1 x80)
              {| Raw.im_size := (2, 1); Raw.im_data := repeat 128 2 |}
              {| Raw.im_size := (2, 1); Raw.im_data := repeat 128 2 |}
              {| Raw.im_size := (40, 10); Raw.im_data := repeat 128 400 |}
              2 1 10)
    as (out & Hrun & Hlen & _);
    try reflexivity; try discriminate; try (simpl; lia).
  exists out. split; [exact Hrun | exact Hlen].
Defined.
